(** * Verification of the Slack / LLM / AWS tool bridge

    Shallow embedding of [aws_mcp_server.py] (SQL guard, Athena poller and
    result fetcher) and of [llm_bot.py] (tool-result extractor and the
    tool-orchestration loop).

    Text is modelled by [string]: a character is a code point below 256
    (Latin-1), which is where Python's [str] and the model coincide. *)

From Stdlib Require Import String Ascii List ZArith Lia Bool Arith.
From Stdlib Require Import Uint63 PrimFloat SpecFloat FloatOps.
Import ListNotations.
Open Scope string_scope.
Set Warnings "-register-all".

(** ** Characters and strings *)

Definition code (c : ascii) : nat := nat_of_ascii c.

Definition in_range (lo hi : nat) (c : ascii) : bool :=
  (lo <=? code c)%nat && (code c <=? hi)%nat.

Definition is_ascii_upper (c : ascii) : bool := in_range 65 90 c.
Definition is_ascii_lower (c : ascii) : bool := in_range 97 122 c.
Definition is_ascii_digit (c : ascii) : bool := in_range 48 57 c.

(** [str.isalnum] on the Latin-1 supplement: the ordinal indicators, the
    superscript digits, micro, the vulgar fractions and the letters. *)
Definition is_latin1_alnum (c : ascii) : bool :=
  let n := code c in
  (n =? 170)%nat || (n =? 178)%nat || (n =? 179)%nat || (n =? 181)%nat
  || (n =? 185)%nat || (n =? 186)%nat
  || in_range 188 190 c
  || in_range 192 214 c || in_range 216 246 c || in_range 248 255 c.

(** The class [\w] of [re] on a [str]: alphanumeric or underscore. *)
Definition is_word (c : ascii) : bool :=
  is_ascii_upper c || is_ascii_lower c || is_ascii_digit c
  || (code c =? 95)%nat || is_latin1_alnum c.

(** [str.lower] on one character, for the code points below 256: each of
    them has a lower-case form of one character below 256. *)
Definition lower (c : ascii) : ascii :=
  if is_ascii_upper c then ascii_of_nat (code c + 32)
  else if (in_range 192 222 c && negb (code c =? 215)%nat)
       then ascii_of_nat (code c + 32)
  else c.

Fixpoint str_lower (s : string) : string :=
  match s with
  | EmptyString => EmptyString
  | String c s' => String (lower c) (str_lower s')
  end.

Definition head (s : string) : option ascii :=
  match s with
  | EmptyString => None
  | String c _ => Some c
  end.

Fixpoint last_char (s : string) : option ascii :=
  match s with
  | EmptyString => None
  | String c s' => match last_char s' with
                   | Some d => Some d
                   | None => Some c
                   end
  end.

Fixpoint starts_with (p s : string) : bool :=
  match p with
  | EmptyString => true
  | String a p' => match s with
                   | String b s' => Ascii.eqb a b && starts_with p' s'
                   | EmptyString => false
                   end
  end.

(** [needle in s] on strings. *)
Fixpoint str_in (needle s : string) : bool :=
  starts_with needle s ||
  match s with
  | EmptyString => false
  | String _ s' => str_in needle s'
  end.

Definition nl : string := String (ascii_of_nat 10) EmptyString.

(** ["\n".join parts] *)
Definition join_nl (parts : list string) : string := String.concat nl parts.

(** ** aws_mcp_server.py: the SQL guard *)

Definition SQL_WORDS : list string :=
  ["INSERT"; "UPDATE"; "DELETE"; "DROP"; "ALTER"; "TRUNCATE"; "CREATE";
   "MSCK"; "GRANT"; "REVOKE"].

Definition is_word_opt (o : option ascii) : bool :=
  match o with
  | Some c => is_word c
  | None => false
  end.

(** [\b] between the character before and the character after a position;
    the outside of the text counts as a non-word character. *)
Definition boundary (prev next : option ascii) : bool :=
  xorb (is_word_opt prev) (is_word_opt next).

(** A pattern letter against a text character under [re.I]. *)
Definition ieq (p c : ascii) : bool := Ascii.eqb (lower p) (lower c).

(** Matches the literal [w] at the start of [s], ignoring case; yields the
    last character consumed (or [prev] when [w] is empty) and the rest. *)
Fixpoint match_literal (w s : string) (prev : option ascii)
  : option (option ascii * string) :=
  match w with
  | EmptyString => Some (prev, s)
  | String p w' =>
      match s with
      | String c s' => if ieq p c then match_literal w' s' (Some c) else None
      | EmptyString => None
      end
  end.

(** [\b(INSERT|...|REVOKE)\b] anchored at one position: [prev] is the
    character before it. *)
Definition match_at (prev : option ascii) (s : string) : bool :=
  boundary prev (head s) &&
  existsb (fun w => match match_literal w s prev with
                    | Some (lastc, rest) => boundary lastc (head rest)
                    | None => false
                    end) SQL_WORDS.

(** [SQL_BLOCK.search]: the leftmost position where the pattern matches. *)
Fixpoint search_from (prev : option ascii) (s : string) : bool :=
  match_at prev s ||
  match s with
  | EmptyString => false
  | String c s' => search_from (Some c) s'
  end.

Definition SQL_BLOCK (sql : string) : bool := search_from None sql.

Inductive exn : Type :=
| ValueError (msg : string)
| RuntimeError (msg : string)
| TimeoutError (msg : string)
| AttributeError (msg : string)
| OtherError (msg : string).

Inductive result (A : Type) : Type :=
| Ok (a : A)
| Raise (e : exn).
Arguments Ok {A} a.
Arguments Raise {A} e.

(** Calls made on the Athena client, in the order they are made. *)
Inductive athena_call : Type :=
| start_query_execution (QueryString : string)
| get_query_execution (QueryExecutionId : string)
| get_query_results (QueryExecutionId : string) (MaxResults : Z).

(** [athena_query]: [backend] answers [start_query_execution] with the
    execution id or an exception; the result comes with the calls made. *)
Definition athena_query (backend : string -> result string) (sql : string)
  : result string * list athena_call :=
  if SQL_BLOCK sql then (Raise (ValueError "Only SELECT/EXPLAIN allowed."), [])
  else (backend sql, [start_query_execution sql]).

(** The guard as the interface table words it: the text holds one of the
    blocked words, in any letter case, as a whole word, that is with no word
    character right before it and none right after it. *)
Definition contains_blocked_word (sql : string) : Prop :=
  exists pre mid post w,
    sql = pre ++ mid ++ post /\
    In w SQL_WORDS /\
    str_lower mid = str_lower w /\
    is_word_opt (last_char pre) = false /\
    is_word_opt (head post) = false.

(** Auxiliary notions used in the proofs about the guard. *)

Definition all_ascii : list ascii := map ascii_of_nat (seq 0 256).

Fixpoint all_chars (P : ascii -> bool) (s : string) : bool :=
  match s with
  | EmptyString => true
  | String c s' => P c && all_chars P s'
  end.

(** The character before the position reached after reading [pre] from a
    position whose preceding character is [prev]. *)
Definition last_from (prev : option ascii) (pre : string) : option ascii :=
  match last_char pre with
  | Some d => Some d
  | None => prev
  end.

(** ** aws_mcp_server.py: the poller and the result fetcher *)

Inductive query_state : Type := QUEUED | RUNNING | SUCCEEDED | FAILED | CANCELLED.

Definition state_name (st : query_state) : string :=
  match st with
  | QUEUED => "QUEUED"
  | RUNNING => "RUNNING"
  | SUCCEEDED => "SUCCEEDED"
  | FAILED => "FAILED"
  | CANCELLED => "CANCELLED"
  end.

(** [q["Status"]]: the state and, when the service gives one, the reason of
    the last state change. *)
Record query_status : Type := {
  State : query_state;
  StateChangeReason : option string
}.

(** A cell of a fetched row: its [VarCharValue] when the key is there. *)
Definition cell : Type := option string.
Definition row : Type := list cell.

(** [f > z] for a float and an integer, which Python compares by their
    exact values. *)
Definition float_gt_int (f : float) (z : Z) : bool :=
  match Prim2SF f with
  | S754_zero _ => (z <? 0)%Z
  | S754_infinity negative => negb negative
  | S754_nan => false
  | S754_finite negative m e =>
      let v := if negative then Z.neg m else Z.pos m in
      if (0 <=? e)%Z then (z <? v * 2 ^ e)%Z
      else (z * 2 ^ (- e) <? v)%Z
  end.

(** What [athena_results] runs against: the successive results of
    [time.time()], which are floats; what [time.sleep(wait_ms/1000)] does,
    [None] when it returns after the pause and the exception when it raises
    (a negative pause, a pause too long for the clock); the answer to the
    n-th [get_query_execution] and the answer to [get_query_results]. *)
Record athena_env : Type := {
  time_reading : nat -> float;
  sleep : Z -> option exn;
  query_execution : string -> nat -> result query_status;
  query_results : string -> Z -> result (list row)
}.

(** [_t.time() - start > max_wait_s]: the difference is the float
    difference. *)
Definition timed_out (now start : float) (max_wait_s : Z) : bool :=
  float_gt_int (PrimFloat.sub now start) max_wait_s.

Record result_set : Type := {
  columns : list string;
  rows : list (list (option string))
}.

(** [a or b] on two optional strings; [None] and the empty string are the
    falsy values. *)
Definition or_id (a b : option string) : option string :=
  match a with
  | Some (String c s) => Some (String c s)
  | _ => b
  end.

Definition truthy_id (a : option string) : bool :=
  match a with
  | Some (String _ _) => true
  | _ => false
  end.

Definition reason_or_empty (q : query_status) : string :=
  match StateChangeReason q with
  | Some r => r
  | None => EmptyString
  end.

(** The [while True] loop: [i] counts the polls made so far, the clock was
    read once before the loop and is read once more in every round that
    finds the job neither finished nor failed. [None] when the fuel runs
    out. *)
Fixpoint poll_loop (fuel : nat) (env : athena_env) (qid : string)
    (wait_ms max_wait_s : Z) (start : float) (i : nat) : option (result unit) :=
  match fuel with
  | O => None
  | S fuel' =>
      match query_execution env qid i with
      | Raise e => Some (Raise e)
      | Ok q =>
          match State q with
          | SUCCEEDED => Some (Ok tt)
          | FAILED | CANCELLED =>
              Some (Raise (RuntimeError
                ("Athena " ++ state_name (State q) ++ ": " ++ reason_or_empty q)))
          | QUEUED | RUNNING =>
              if timed_out (time_reading env (S i)) start max_wait_s
              then Some (Raise (TimeoutError "Athena query timed out"))
              else match sleep env wait_ms with
                   | Some e => Some (Raise e)
                   | None => poll_loop fuel' env qid wait_ms max_wait_s start (S i)
                   end
          end
      end
  end.

Definition header_cell (c : cell) : string :=
  match c with
  | Some v => v
  | None => EmptyString
  end.

Definition data_cell (d : cell) : option string := d.

(** The last three lines of [athena_results]. *)
Definition shape_results (fetched : list row) : result_set :=
  {| columns := match fetched with
                | r0 :: _ => map header_cell r0
                | [] => []
                end;
     rows := if (1 <? length fetched)%nat
             then map (map data_cell) (skipn 1 fetched)
             else [] |}.

Definition athena_results (env : athena_env) (fuel : nat)
    (query_execution_id queryExecutionId : option string)
    (max_rows wait_ms max_wait_s : Z) : option (result result_set) :=
  match or_id query_execution_id queryExecutionId with
  | Some (String c s) =>
      let qid := String c s in
      match poll_loop fuel env qid wait_ms max_wait_s (time_reading env 0) 0 with
      | None => None
      | Some (Raise e) => Some (Raise e)
      | Some (Ok _) =>
          match query_results env qid max_rows with
          | Raise e => Some (Raise e)
          | Ok fetched => Some (Ok (shape_results fetched))
          end
      end
  | _ => Some (Raise (ValueError "Provide query_execution_id (or queryExecutionId)."))
  end.

(** The n-th poll finds the job queued or running. *)
Definition pending (env : athena_env) (qid : string) (i : nat) : Prop :=
  exists q, query_execution env qid i = Ok q /\
            (State q = QUEUED \/ State q = RUNNING).

(** The clock reading taken in round [i] is within the wait budget. *)
Definition within_budget (env : athena_env) (max_wait_s : Z) (i : nat) : Prop :=
  timed_out (time_reading env (S i)) (time_reading env 0) max_wait_s = false.

(** A clock that advances one second per reading. *)
Definition seconds (n : nat) : float := PrimFloat.of_uint63 (Uint63.of_Z (Z.of_nat n)).

(** A job that runs for two polls and then fails, read by a clock that
    advances one second per reading. *)
Definition failing_job : athena_env :=
  {| time_reading := seconds;
     sleep := fun _ => None;
     query_execution := fun _ i =>
       if (i <? 2)%nat
       then Ok {| State := RUNNING; StateChangeReason := None |}
       else Ok {| State := FAILED; StateChangeReason := Some "boom" |};
     query_results := fun _ _ => Ok [] |}.

(** A job that has succeeded at the first poll, with a header row and one
    data row, each with a cell that has no value. *)
Definition finished_job : athena_env :=
  {| time_reading := seconds;
     sleep := fun _ => None;
     query_execution := fun _ _ =>
       Ok {| State := SUCCEEDED; StateChangeReason := None |};
     query_results := fun _ _ => Ok [[Some "a"; None]; [Some "1"; None]] |}.

(** A job that stays running, read by that clock. *)
Definition slow_job : athena_env :=
  {| time_reading := seconds;
     sleep := fun _ => None;
     query_execution := fun _ _ =>
       Ok {| State := RUNNING; StateChangeReason := None |};
     query_results := fun _ _ => Ok [] |}.

(** ** Numbers as Python reads and prints them *)

Fixpoint digits_of (fuel : nat) (n : Z) (acc : string) : string :=
  match fuel with
  | O => acc
  | S f =>
      let acc' := String (ascii_of_nat (48 + Z.to_nat (n mod 10))) acc in
      if (n <? 10)%Z then acc' else digits_of f (n / 10)%Z acc'
  end.

(** [str] of an integer; it has no more decimal digits than binary ones. *)
Definition str_of_Z (z : Z) : string :=
  let n := Z.abs z in
  (if (z <? 0)%Z then "-" else EmptyString)
  ++ digits_of (S (Z.to_nat (Z.log2 n))) n EmptyString.

(** [n / d] rounded to the nearest integer, a tie going to the even one. *)
Definition div_round_even (n d : Z) : Z :=
  let q := (n / d)%Z in
  let r := (n mod d)%Z in
  if (2 * r <? d)%Z then q
  else if (d <? 2 * r)%Z then (q + 1)%Z
  else if Z.even q then q else (q + 1)%Z.

Definition float_of_Z (q : Z) (p : Z) : float :=
  FloatOps.Z.ldexp (PrimFloat.of_uint63 (Uint63.of_Z q)) p.

(** [float] of the decimal [m * 10 ^ e], [m] positive: the nearest float,
    a tie going to the even mantissa; [digits] is the number of digits of
    [m], used to settle the decimals too large or too small for a float
    without computing the power. *)
Definition decimal_to_float (m e : Z) (digits : Z) : float :=
  if (m =? 0)%Z then 0%float
  else if (400 <? digits + e)%Z then PrimFloat.infinity
  else if (digits + e <? -400)%Z then 0%float
  else
    let num := if (0 <=? e)%Z then (m * 10 ^ e)%Z else m in
    let den := if (0 <=? e)%Z then 1%Z else (10 ^ (- e))%Z in
    let b0 := (Z.log2 num - Z.log2 den)%Z in
    let reaches := if (0 <=? b0)%Z then (den * 2 ^ b0 <=? num)%Z
                   else (den <=? num * 2 ^ (- b0))%Z in
    let b := if reaches then b0 else (b0 - 1)%Z in
    let p := Z.max (b - 52) (-1074) in
    let q := if (0 <=? p)%Z then div_round_even num (den * 2 ^ p)
             else div_round_even (num * 2 ^ (- p)) den in
    if (1024 <=? b)%Z then PrimFloat.infinity else float_of_Z q p.

(** Comparison of [a * 10 ^ i] with [n / d] ([d] positive), as integers. *)
Definition scaled_cmp (a i n d : Z) : comparison :=
  if (0 <=? i)%Z then (a * 10 ^ i * d ?= n)%Z
  else (a * d ?= n * 10 ^ (- i))%Z.

(** The number of digits of a positive integer. *)
Definition digit_count (n : Z) : Z := Z.of_nat (String.length (str_of_Z n)).

(** The position of the decimal point of [n / d]: the [k] with
    [10 ^ (k - 1) <= n / d < 10 ^ k], looked for from an estimate. *)
Fixpoint decimal_point_from (fuel : nat) (k n d : Z) : Z :=
  match fuel with
  | O => k
  | S f =>
      match scaled_cmp 1 k n d with
      | Gt => match scaled_cmp 1 (k - 1) n d with
              | Gt => decimal_point_from f (k - 1) n d
              | _ => k
              end
      | _ => decimal_point_from f (k + 1) n d
      end
  end.

Definition decimal_point (n d : Z) : Z :=
  decimal_point_from 700 (digit_count n - digit_count d) n d.

(** The shortest decimal that reads back as the float [m * 2 ^ e]: its
    digits and the position of its decimal point. A decimal reads back as
    the float when it lies between the middles to the two neighbouring
    floats, the middles counting when the mantissa is even; of the two
    decimals of a given length around the float the closer one is taken. *)
Definition shortest_digits (m e : Z) : Z * Z :=
  let scale := if (0 <=? e)%Z then 1%Z else (2 ^ (- e))%Z in
  let unit := if (0 <=? e)%Z then (2 ^ e)%Z else 1%Z in
  let xn := (4 * m * unit)%Z in
  let den := (4 * scale)%Z in
  let low_gap := if ((m =? 2 ^ 52) && (-1074 <? e))%Z then unit else (2 * unit)%Z in
  let lo := (xn - low_gap)%Z in
  let hi := (xn + 2 * unit)%Z in
  let closed := Z.even m in
  let inside (c i : Z) :=
    match scaled_cmp c i lo den, scaled_cmp c i hi den with
    | Gt, Lt => true
    | Eq, _ => closed
    | _, Eq => closed
    | _, _ => false
    end in
  let k := decimal_point xn den in
  let fix search (fuel : nat) (n : Z) : Z * Z :=
    match fuel with
    | O => (0%Z, k)
    | S f =>
        let i := (k - n)%Z in
        let below := if (0 <=? i)%Z then (xn / (den * 10 ^ i))%Z
                     else (xn * 10 ^ (- i) / den)%Z in
        let above := (below + 1)%Z in
        let below_in := inside below i && (0 <? below)%Z in
        let above_in := inside above i in
        let above_closer :=
          (* above * s - x < x - below * s *)
          match scaled_cmp (below + above) i (2 * xn) den with
          | Lt => true
          | Eq => Z.even above
          | Gt => false
          end in
        if below_in && above_in
        then (if above_closer then (above, i) else (below, i))
        else if below_in then (below, i)
        else if above_in then (above, i)
        else search f (n + 1)%Z
    end in
  search 18%nat 1%Z.

(** Trailing zeros taken off a digit sequence, the exponent raised. *)
Fixpoint strip_zeros (fuel : nat) (c i : Z) : Z * Z :=
  match fuel with
  | O => (c, i)
  | S f => if ((c mod 10 =? 0) && negb (c =? 0))%Z
           then strip_zeros f (c / 10)%Z (i + 1)%Z
           else (c, i)
  end.

Fixpoint zeros (n : nat) : string :=
  match n with
  | O => EmptyString
  | S n' => String (ascii_of_nat 48) (zeros n')
  end.

(** [repr] of a positive finite float given by its shortest digits. *)
Definition format_digits (c i : Z) : string :=
  let digits := str_of_Z c in
  let nd := Z.of_nat (String.length digits) in
  let decpt := (nd + i)%Z in
  if ((-4 <? decpt) && (decpt <=? 16))%Z then
    if (decpt <=? 0)%Z then "0." ++ zeros (Z.to_nat (- decpt)) ++ digits
    else if (nd <=? decpt)%Z then digits ++ zeros (Z.to_nat (decpt - nd)) ++ ".0"
    else substring 0 (Z.to_nat decpt) digits ++ "."
         ++ substring (Z.to_nat decpt) (Z.to_nat (nd - decpt)) digits
  else
    let x := (decpt - 1)%Z in
    let ex := str_of_Z (Z.abs x) in
    substring 0 1 digits
    ++ (if (1 <? nd)%Z then "." ++ substring 1 (Z.to_nat (nd - 1)) digits
        else EmptyString)
    ++ "e" ++ (if (x <? 0)%Z then "-" else "+")
    ++ (if (Z.abs x <? 10)%Z then "0" else EmptyString) ++ ex.

(** [float.__repr__], with the names [json.dumps] gives to the floats that
    are no numbers. *)
Definition float_repr (f : float) : string :=
  match Prim2SF f with
  | S754_nan => "NaN"
  | S754_infinity negative => if negative then "-Infinity" else "Infinity"
  | S754_zero negative => if negative then "-0.0" else "0.0"
  | S754_finite negative m e =>
      let '(c, i) := shortest_digits (Z.pos m) e in
      let '(c', i') := strip_zeros 20 c i in
      (if negative then "-" else EmptyString) ++ format_digits c' i'
  end.

(** ** JSON values and the [json] module *)

Inductive json : Type :=
| JNull
| JBool (b : bool)
| JNum (n : Z)
| JFloat (f : float)
| JStr (s : string)
| JArr (items : list json)
| JObj (fields : list (string * json)).

(** What [json.loads] ends with: the decoded value, the decode error it
    raises for a text that is not JSON, with its message, or another
    exception (a [ValueError] for an integer of too many digits, a
    [RecursionError] for a text nested too deep). *)
Inductive loads_result : Type :=
| Decoded (v : json)
| JSONDecodeError (msg : string)
| LoadsError (e : exn).

(** A [dict] with string keys, in insertion order. *)
Fixpoint dict_get {A : Type} (k : string) (d : list (string * A)) : option A :=
  match d with
  | [] => None
  | (k', v) :: d' => if String.eqb k k' then Some v else dict_get k d'
  end.

(** [d[k] = v]: an existing key keeps its place and takes the new value. *)
Fixpoint dict_set {A : Type} (k : string) (v : A) (d : list (string * A))
  : list (string * A) :=
  match d with
  | [] => [(k, v)]
  | (k', v') :: d' =>
      if String.eqb k k' then (k, v) :: d' else (k', v') :: dict_set k v d'
  end.

Definition is_ws (c : ascii) : bool :=
  let n := code c in
  (n =? 32)%nat || (n =? 9)%nat || (n =? 10)%nat || (n =? 13)%nat.

Fixpoint skip_ws (s : string) : string :=
  match s with
  | String c s' => if is_ws c then skip_ws s' else s
  | EmptyString => s
  end.

Definition hex_value (c : ascii) : option nat :=
  let n := code c in
  if is_ascii_digit c then Some (n - 48)%nat
  else if in_range 97 102 c then Some (n - 87)%nat
  else if in_range 65 70 c then Some (n - 55)%nat
  else None.

(** The four hex digits after a backslash-u, as a code point. *)
Definition parse_hex4 (s : string) : option (nat * string) :=
  match s with
  | String a (String b (String c (String d rest))) =>
      match hex_value a, hex_value b, hex_value c, hex_value d with
      | Some x, Some y, Some z, Some w =>
          Some (((x * 16 + y) * 16 + z) * 16 + w, rest)%nat
      | _, _, _, _ => None
      end
  | _ => None
  end.

Definition unescape (e : ascii) (rest : string) : option (ascii * string) :=
  let n := code e in
  if (n =? 34)%nat || (n =? 92)%nat || (n =? 47)%nat then Some (e, rest)
  else if (n =? 98)%nat then Some (ascii_of_nat 8, rest)
  else if (n =? 102)%nat then Some (ascii_of_nat 12, rest)
  else if (n =? 110)%nat then Some (ascii_of_nat 10, rest)
  else if (n =? 114)%nat then Some (ascii_of_nat 13, rest)
  else if (n =? 116)%nat then Some (ascii_of_nat 9, rest)
  else if (n =? 117)%nat then
    match parse_hex4 rest with
    | Some (cp, r) => if (cp <? 256)%nat then Some (ascii_of_nat cp, r) else None
    | None => None
    end
  else None.

Definition cons_body (c : ascii) (o : option (string * string))
  : option (string * string) :=
  match o with
  | Some (body, r) => Some (String c body, r)
  | None => None
  end.

(** The body of a string literal, after the opening quote. Control
    characters are refused, as the strict decoder does; an escape of a code
    point above 255 is outside the modelled texts and refused too. *)
Fixpoint parse_string_body (fuel : nat) (s : string) : option (string * string) :=
  match fuel with
  | O => None
  | S f =>
      match s with
      | EmptyString => None
      | String c rest =>
          if (code c =? 34)%nat then Some (EmptyString, rest)
          else if (code c =? 92)%nat then
            match rest with
            | String e rest' =>
                match unescape e rest' with
                | Some (ch, r) => cons_body ch (parse_string_body f r)
                | None => None
                end
            | EmptyString => None
            end
          else if (code c <? 32)%nat then None
          else cons_body c (parse_string_body f rest)
      end
  end.

(** The longest run of decimal digits at the start of a text. *)
Fixpoint span_digits (s : string) : string * string :=
  match s with
  | String c r =>
      if is_ascii_digit c
      then let '(ds, rest) := span_digits r in (String c ds, rest)
      else (EmptyString, s)
  | EmptyString => (EmptyString, s)
  end.

Fixpoint Z_of_digits (ds : string) (acc : Z) : Z :=
  match ds with
  | String c r => Z_of_digits r (acc * 10 + Z.of_nat (code c - 48))%Z
  | EmptyString => acc
  end.

(** What reading a value at the start of a text gives: the value and the
    rest of the text, no value, or an exception that is no decode error. *)
Inductive parsed : Type :=
| Parsed (v : json) (rest : string)
| NoParse
| ParseRaise (e : exn).

Definition int_digits_limit : nat := 4300.

(** A number: an optional minus, an integer part without a leading zero,
    then a fraction and an exponent if they are complete. With neither it
    is an integer, refused when it has more digits than [int] takes from a
    string; with one of them it is a float. *)
Definition parse_number (s : string) : parsed :=
  let '(neg, s1) := match s with
                    | String c r => if (code c =? 45)%nat then (true, r) else (false, s)
                    | EmptyString => (false, s)
                    end in
  let int_part :=
    match s1 with
    | String c r =>
        if (code c =? 48)%nat then Some (String c EmptyString, r)
        else if in_range 49 57 c then Some (span_digits s1)
        else None
    | EmptyString => None
    end in
  match int_part with
  | None => NoParse
  | Some (ids, r1) =>
      let '(frac, r2) :=
        match r1 with
        | String d r =>
            if (code d =? 46)%nat then
              match span_digits r with
              | (String f fs, rest) => (Some (String f fs), rest)
              | _ => (None, r1)
              end
            else (None, r1)
        | EmptyString => (None, r1)
        end in
      let '(expo, r3) :=
        match r2 with
        | String d r =>
            if ((code d =? 101) || (code d =? 69))%nat then
              let '(eneg, r') :=
                match r with
                | String g r'' =>
                    if (code g =? 45)%nat then (true, r'')
                    else if (code g =? 43)%nat then (false, r'')
                    else (false, r)
                | EmptyString => (false, r)
                end in
              match span_digits r' with
              | (String f fs, rest) =>
                  let x := Z_of_digits (String f fs) 0 in
                  (Some (if eneg then (- x)%Z else x), rest)
              | _ => (None, r2)
              end
            else (None, r2)
        | EmptyString => (None, r2)
        end in
      match frac, expo with
      | None, None =>
          if (int_digits_limit <? String.length ids)%nat
          then ParseRaise (ValueError
                 ("Exceeds the limit (4300 digits) for integer string conversion: value has "
                  ++ str_of_Z (Z.of_nat (String.length ids))
                  ++ " digits; use sys.set_int_max_str_digits() to increase the limit"))
          else let n := Z_of_digits ids 0 in
               Parsed (JNum (if neg then (- n)%Z else n)) r3
      | _, _ =>
          let fs := match frac with Some f => f | None => EmptyString end in
          let x := match expo with Some x => x | None => 0%Z end in
          let m := Z_of_digits (ids ++ fs) 0 in
          let f := decimal_to_float m (x - Z.of_nat (String.length fs))
                     (Z.of_nat (String.length (str_of_Z m))) in
          Parsed (JFloat (if neg then PrimFloat.opp f else f)) r3
      end
  end.

Fixpoint drop (n : nat) (s : string) : string :=
  match n, s with
  | S n', String _ s' => drop n' s'
  | _, _ => s
  end.

Fixpoint parse_value (fuel : nat) (s : string) : parsed :=
  match fuel with
  | O => NoParse
  | S f =>
      match s with
      | EmptyString => NoParse
      | String c rest =>
          if (code c =? 123)%nat then
            match skip_ws rest with
            | String d r => if (code d =? 125)%nat then Parsed (JObj []) r
                            else parse_members f (String d r) []
            | EmptyString => NoParse
            end
          else if (code c =? 91)%nat then
            match skip_ws rest with
            | String d r => if (code d =? 93)%nat then Parsed (JArr []) r
                            else parse_elements f (String d r) []
            | EmptyString => NoParse
            end
          else if (code c =? 34)%nat then
            match parse_string_body (String.length rest) rest with
            | Some (str, r) => Parsed (JStr str) r
            | None => NoParse
            end
          else if starts_with "null" s then Parsed JNull (drop 4 s)
          else if starts_with "true" s then Parsed (JBool true) (drop 4 s)
          else if starts_with "false" s then Parsed (JBool false) (drop 5 s)
          else if starts_with "NaN" s then Parsed (JFloat PrimFloat.nan) (drop 3 s)
          else if starts_with "Infinity" s
               then Parsed (JFloat PrimFloat.infinity) (drop 8 s)
          else if starts_with "-Infinity" s
               then Parsed (JFloat PrimFloat.neg_infinity) (drop 9 s)
          else parse_number s
      end
  end
with parse_elements (fuel : nat) (s : string) (acc : list json) : parsed :=
  match fuel with
  | O => NoParse
  | S f =>
      match parse_value f s with
      | Parsed v r =>
          match skip_ws r with
          | String d r' =>
              if (code d =? 93)%nat then Parsed (JArr (acc ++ [v])) r'
              else if (code d =? 44)%nat
                   then parse_elements f (skip_ws r') (acc ++ [v])
              else NoParse
          | EmptyString => NoParse
          end
      | other => other
      end
  end
with parse_members (fuel : nat) (s : string) (acc : list (string * json)) : parsed :=
  match fuel with
  | O => NoParse
  | S f =>
      match s with
      | String q rest =>
          if (code q =? 34)%nat then
            match parse_string_body (String.length rest) rest with
            | Some (key, r) =>
                match skip_ws r with
                | String colon r1 =>
                    if (code colon =? 58)%nat then
                      match parse_value f (skip_ws r1) with
                      | Parsed v r2 =>
                          match skip_ws r2 with
                          | String d r3 =>
                              if (code d =? 125)%nat
                              then Parsed (JObj (dict_set key v acc)) r3
                              else if (code d =? 44)%nat
                                   then parse_members f (skip_ws r3) (dict_set key v acc)
                              else NoParse
                          | EmptyString => NoParse
                          end
                      | other => other
                      end
                    else NoParse
                | EmptyString => NoParse
                end
            | None => NoParse
            end
          else NoParse
      | EmptyString => NoParse
      end
  end.

(** [json.loads]. The wording of the message of a decode error is not
    modelled, and the recursion limit of the interpreter, which depends on
    the call stack at the call, is taken as not reached. *)
Definition json_loads (s : string) : loads_result :=
  match parse_value (S (String.length s)) (skip_ws s) with
  | Parsed v r =>
      match skip_ws r with
      | EmptyString => Decoded v
      | String _ _ => JSONDecodeError "Extra data"
      end
  | NoParse => JSONDecodeError "Expecting value"
  | ParseRaise e => LoadsError e
  end.

(** The double quote, and a text between double quotes. *)
Definition dq : string := String (ascii_of_nat 34) EmptyString.
Definition quoted (s : string) : string := dq ++ s ++ dq.
Definition backslash : string := String (ascii_of_nat 92) EmptyString.

Definition hex_digit (n : nat) : ascii :=
  if (n <? 10)%nat then ascii_of_nat (48 + n) else ascii_of_nat (87 + n).

(** One character of a string under [ensure_ascii]. *)
Definition escape_char (c : ascii) : string :=
  let n := code c in
  if (n =? 34)%nat then backslash ++ dq
  else if (n =? 92)%nat then backslash ++ backslash
  else if (n =? 10)%nat then backslash ++ "n"
  else if (n =? 13)%nat then backslash ++ "r"
  else if (n =? 9)%nat then backslash ++ "t"
  else if (n =? 8)%nat then backslash ++ "b"
  else if (n =? 12)%nat then backslash ++ "f"
  else if in_range 32 126 c then String c EmptyString
  else backslash ++ "u00"
       ++ String (hex_digit (n / 16)) (String (hex_digit (n mod 16)) EmptyString).

Fixpoint escape (s : string) : string :=
  match s with
  | EmptyString => EmptyString
  | String c s' => escape_char c ++ escape s'
  end.

(** [json.dumps] with its default separators. *)
Fixpoint json_dumps (v : json) : string :=
  match v with
  | JNull => "null"
  | JBool true => "true"
  | JBool false => "false"
  | JNum n => str_of_Z n
  | JFloat f => float_repr f
  | JStr s => quoted (escape s)
  | JArr items =>
      "[" ++ (fix go (l : list json) : string :=
                match l with
                | [] => EmptyString
                | x :: r => match r with
                            | [] => json_dumps x
                            | _ :: _ => json_dumps x ++ ", " ++ go r
                            end
                end) items ++ "]"
  | JObj fields =>
      "{" ++ (fix go (l : list (string * json)) : string :=
                match l with
                | [] => EmptyString
                | (k, x) :: r =>
                    match r with
                    | [] => quoted (escape k) ++ ": " ++ json_dumps x
                    | _ :: _ => quoted (escape k) ++ ": " ++ json_dumps x ++ ", " ++ go r
                    end
                end) fields ++ "}"
  end.

(** The two functions of the [json] module the bot uses. The definitions
    below take them as a parameter, so that what is proved of the bot holds
    for the full decoder as well as for [py_json]. *)
Record json_module : Type := {
  loads : string -> loads_result;
  dumps : json -> string
}.

Definition py_json : json_module :=
  {| loads := json_loads; dumps := json_dumps |}.

(** ** llm_bot.py: the tool-result extractor *)

Definition exn_str (e : exn) : string :=
  match e with
  | ValueError m | RuntimeError m | TimeoutError m
  | AttributeError m | OtherError m => m
  end.

(** The [json] attribute of a content item: a method, with what calling it
    gives, or a plain value. *)
Inductive json_attr : Type :=
| JsonMethod (r : result json)
| JsonProperty (v : json).

(** A content item, by the attributes the extractor probes: each is there
    or not. *)
Record content_item : Type := {
  model_dump_json : option (result string);
  json_member : option json_attr;
  text : option string
}.

Record mcp_result : Type := {
  content : option (list content_item)
}.

(** Truth value of a decoded value. *)
Definition truthy (v : json) : bool :=
  match v with
  | JNull => false
  | JBool b => b
  | JNum n => negb (n =? 0)%Z
  | JFloat f => negb (PrimFloat.eqb f 0%float)
  | JStr s => negb (String.eqb s EmptyString)
  | JArr l => match l with [] => false | _ => true end
  | JObj d => match d with [] => false | _ => true end
  end.

Definition error_value (msg : string) : json := JObj [("error", JStr msg)].

(** The inner decoding, on a dict with a string under ["text"]: the decoded
    inner text, or the dict itself when the inner text is not JSON; another
    exception of the decoder is not caught here. Any other value is
    returned as it is. *)
Definition unwrap_text (J : json_module) (v : json) : result json :=
  match v with
  | JObj fields =>
      match dict_get "text" fields with
      | Some (JStr s) =>
          match loads J s with
          | Decoded inner_parsed => Ok inner_parsed
          | JSONDecodeError _ => Ok v
          | LoadsError e => Raise e
          end
      | _ => Ok v
      end
  | _ => Ok v
  end.

(** One round of the [for item in mcp_result.content] loop: [Some] when
    the round returns, [None] when no branch applies to the item. In the
    first branch an exception other than the decode error of the inner text
    reaches the handler of the function and gives the error dict; in the
    text branch every exception is caught by the handlers of the branch and
    gives the dict with the raw text. *)
Definition extract_item (J : json_module) (item : content_item) : option json :=
  match model_dump_json item with
  | Some (Raise e) => Some (error_value (exn_str e))
  | Some (Ok dump) =>
      match loads J dump with
      | Decoded result =>
          match unwrap_text J result with
          | Ok v => Some v
          | Raise e => Some (error_value (exn_str e))
          end
      | JSONDecodeError msg => Some (error_value msg)
      | LoadsError e => Some (error_value (exn_str e))
      end
  | None =>
      let text_branch :=
        match text item with
        | Some (String c s) =>
            match loads J (String c s) with
            | Decoded parsed =>
                match unwrap_text J parsed with
                | Ok v => Some v
                | Raise _ => Some (JObj [("text", JStr (String c s))])
                end
            | _ => Some (JObj [("text", JStr (String c s))])
            end
        | _ => None
        end in
      match json_member item with
      | Some (JsonMethod (Ok v)) => Some v
      | Some (JsonMethod (Raise e)) => Some (error_value (exn_str e))
      | Some (JsonProperty v) => if truthy v then Some v else text_branch
      | None => text_branch
      end
  end.

Fixpoint extract_items (J : json_module) (items : list content_item) : json :=
  match items with
  | [] => error_value "No content found"
  | item :: items' =>
      match extract_item J item with
      | Some v => v
      | None => extract_items J items'
      end
  end.

Definition extract_tool_result (J : json_module) (r : mcp_result) : json :=
  match content r with
  | Some items => extract_items J items
  | None => error_value "No content found"
  end.

(** An item with nothing but a text, and the item the MCP client builds
    for a text: a pydantic object, whose dump holds the type, the text and
    the two optional fields, unset. *)
Definition text_item (t : string) : content_item :=
  {| model_dump_json := None; json_member := None; text := Some t |}.

Definition pydantic_text_item (t : string) : content_item :=
  {| model_dump_json :=
       Some (Ok (json_dumps (JObj [("type", JStr "text"); ("text", JStr t);
                                   ("annotations", JNull); ("meta", JNull)])));
     json_member := None;
     text := Some t |}.

Definition response_of (item : content_item) : mcp_result :=
  {| content := Some [item] |}.

(** The two texts of the extractor's round trip. *)
Definition wrapped_a1 : string :=
  "{" ++ quoted "text" ++ ": " ++ quoted ("{" ++ backslash ++ quoted ("a" ++ backslash) ++ ":1}") ++ "}".

(** An item that carries only a non-empty text: the extractor handles it
    by its text branch. *)
Definition text_only (item : content_item) (t : string) : Prop :=
  model_dump_json item = None /\
  (json_member item = None \/
   exists v, json_member item = Some (JsonProperty v) /\ truthy v = false) /\
  text item = Some t /\ t <> EmptyString.

(** The value has a string under the key ["text"]. *)
Definition text_field (v : json) : option string :=
  match v with
  | JObj fields => match dict_get "text" fields with
                   | Some (JStr s) => Some s
                   | _ => None
                   end
  | _ => None
  end.

(** ** llm_bot.py: the orchestrator *)

Inductive role : Type := user | assistant.

Definition role_eqb (a b : role) : bool :=
  match a, b with
  | user, user | assistant, assistant => true
  | _, _ => false
  end.

(** The dicts put in a message's content list, by their ["type"]. *)
Inductive part : Type :=
| TextPart (txt : string)
| ToolUsePart (id name : string) (input : json)
| ToolResultPart (tool_use_id : string) (payload : string).

(** The content of a message: a plain string, as the handlers build for the
    user's question, or a list of parts. *)
Inductive msg_content : Type :=
| Plain (s : string)
| Parts (ps : list part).

Record message : Type := {
  msg_role : role;
  msg_body : msg_content
}.

(** The blocks of a model response, by the attributes the loop probes: a
    block with a [text], a block with a [name] and an [input], any other. *)
Inductive block : Type :=
| TextBlock (txt : string)
| ToolUseBlock (id name : string) (input : json)
| OtherBlock.

Record tool_definition : Type := {
  tool_name : string;
  tool_description : string;
  input_schema : json
}.

(** The arguments of one [client.messages.create]; [call_tools] is [None]
    when the [tools] argument is not passed. *)
Record model_call : Type := {
  call_system : string;
  call_messages : list message;
  call_tools : option (list tool_definition)
}.

(** One [session.call_tool]. *)
Record tool_call : Type := {
  called_name : string;
  called_input : json
}.

(** The two hosts the loop talks to: the answer to the n-th model call and
    to the n-th tool call, counted from 0, given its arguments. *)
Record hosts : Type := {
  create : nat -> model_call -> result (list block);
  call_tool : nat -> tool_call -> result mcp_result
}.

(** The state of a run: [current_messages] and the calls made so far. *)
Record run_state : Type := {
  current_messages : list message;
  model_calls : list model_call;
  tool_calls : list tool_call
}.

Definition rate_limit_apology : string :=
  "I encountered a rate limit while processing your request. Please try again in a moment.".

Definition fallback_sentence : string :=
  "I've completed the data analysis. Please check the results above.".

Definition summary_request : string :=
  "Based on the database exploration and queries I've executed, please provide a comprehensive analysis of the Android GAM revenue data. Include:"
  ++ nl ++ "1. What databases and tables were found"
  ++ nl ++ "2. What data structure was discovered"
  ++ nl ++ "3. Any successful query results"
  ++ nl ++ "4. Challenges encountered with column access"
  ++ nl ++ "5. Recommendations for accessing the Android revenue data"
  ++ nl ++ nl
  ++ "Please be specific about what was found and what the next steps should be.".

(** ["429" in str(e) or "rate limit" in str(e).lower()] *)
Definition is_rate_limit (e : exn) : bool :=
  str_in "429" (exn_str e) || str_in "rate limit" (str_lower (exn_str e)).

Definition part_texts (ps : list part) : list string :=
  flat_map (fun p => match p with TextPart t => [t] | _ => [] end) ps.

(** The texts gathered in the rate-limit handler. Iterating the content of
    an assistant message that is a non-empty plain string calls [get] on a
    character, which raises. *)
Fixpoint salvage_texts (msgs : list message) : result (list string) :=
  match msgs with
  | [] => Ok []
  | m :: ms =>
      match msg_role m, msg_body m with
      | assistant, Parts ps =>
          match salvage_texts ms with
          | Ok rest => Ok (part_texts ps ++ rest)%list
          | Raise e => Raise e
          end
      | assistant, Plain (String _ _) =>
          Raise (AttributeError "'str' object has no attribute 'get'")
      | _, _ => salvage_texts ms
      end
  end.

Definition salvage (msgs : list message) : result string :=
  match salvage_texts msgs with
  | Ok [] => Ok rate_limit_apology
  | Ok (t :: ts) => Ok (join_nl (t :: ts))
  | Raise e => Raise e
  end.

(** The [for content in response.content] loop with its [break]: the
    content of the assistant message and the tool use met, if any. *)
Fixpoint scan_response (blocks : list block)
  : list part * option (string * tool_call) :=
  match blocks with
  | [] => ([], None)
  | TextBlock (String c t) :: bs =>
      let '(ps, tu) := scan_response bs in (TextPart (String c t) :: ps, tu)
  | ToolUseBlock id name input :: _ =>
      ([ToolUsePart id name input],
       Some (id, {| called_name := name; called_input := input |}))
  | _ :: bs => scan_response bs
  end.

(** The non-empty texts of a response. *)
Definition block_texts (blocks : list block) : list string :=
  flat_map (fun b => match b with
                     | TextBlock (String c t) => [String c t]
                     | _ => []
                     end) blocks.

Definition tool_result_message (id payload : string) : message :=
  {| msg_role := user; msg_body := Parts [ToolResultPart id payload] |}.

(** What one round of the loop ends with. *)
Inductive round_end : Type :=
| Continue
| Return (r : result string).

(** The body of [for iteration in range(max_iterations)]. *)
Definition iteration (J : json_module) (H : hosts) (system : string)
    (tools : list tool_definition) (st : run_state) : run_state * round_end :=
  let call := {| call_system := system;
                 call_messages := current_messages st;
                 call_tools := Some tools |} in
  let st1 := {| current_messages := current_messages st;
                model_calls := (model_calls st ++ [call])%list;
                tool_calls := tool_calls st |} in
  match create H (length (model_calls st)) call with
  | Raise e =>
      if is_rate_limit e then (st1, Return (salvage (current_messages st)))
      else (st1, Return (Raise e))
  | Ok blocks =>
      match scan_response blocks with
      | (_, None) => (st1, Return (Ok (join_nl (block_texts blocks))))
      | (ps, Some (id, tc)) =>
          let assistant_message := {| msg_role := assistant; msg_body := Parts ps |} in
          let payload :=
            match call_tool H (length (tool_calls st)) tc with
            | Ok r => dumps J (extract_tool_result J r)
            | Raise e => dumps J (error_value (exn_str e))
            end in
          ({| current_messages :=
                (current_messages st
                 ++ [assistant_message; tool_result_message id payload])%list;
              model_calls := (model_calls st ++ [call])%list;
              tool_calls := (tool_calls st ++ [tc])%list |}, Continue)
      end
  end.

Fixpoint loop (J : json_module) (H : hosts) (system : string)
    (tools : list tool_definition) (n : nat) (st : run_state)
  : run_state * option (result string) :=
  match n with
  | O => (st, None)
  | S n' =>
      match iteration J H system tools st with
      | (st', Return r) => (st', Some r)
      | (st', Continue) => loop J H system tools n' st'
      end
  end.

Definition has_key (k : string) (d : list (string * json)) : bool :=
  match dict_get k d with
  | Some _ => true
  | None => false
  end.

(** First scan after the loop: a tool result whose payload decodes to a
    dict with one of the data keys. *)
Definition is_data_result (J : json_module) (p : part) : bool :=
  match p with
  | ToolResultPart _ payload =>
      match loads J payload with
      | Decoded (JObj d) =>
          has_key "columns" d || has_key "data" d || has_key "rows" d
          || has_key "databases" d || has_key "tables" d
      | _ => false
      end
  | _ => false
  end.

Definition is_tool_result (p : part) : bool :=
  match p with
  | ToolResultPart _ _ => true
  | _ => false
  end.

(** Both scans look at the user messages whose content is a list; the
    characters of a plain string are no dicts and are passed over. *)
Definition user_parts_exist (P : part -> bool) (msgs : list message) : bool :=
  existsb (fun m => role_eqb (msg_role m) user &&
                    match msg_body m with
                    | Parts ps => existsb P ps
                    | Plain _ => false
                    end) msgs.

Definition has_data (J : json_module) (msgs : list message) : bool :=
  if user_parts_exist (is_data_result J) msgs then true
  else user_parts_exist is_tool_result msgs.

(** The code after the loop. *)
Definition exhausted (J : json_module) (H : hosts) (system : string)
    (st : run_state) : run_state * result string :=
  if has_data J (current_messages st) then
    let msgs := (current_messages st
                 ++ [{| msg_role := user; msg_body := Plain summary_request |}])%list in
    let call := {| call_system := system;
                   call_messages := msgs;
                   call_tools := None |} in
    let st' := {| current_messages := msgs;
                  model_calls := (model_calls st ++ [call])%list;
                  tool_calls := tool_calls st |} in
    match create H (length (model_calls st)) call with
    | Ok blocks =>
        match block_texts blocks with
        | [] => (st', Ok fallback_sentence)
        | t :: ts => (st', Ok (join_nl (t :: ts)))
        end
    | Raise _ => (st', Ok fallback_sentence)
    end
  else (st, Ok fallback_sentence).

(** What a run leaves: what it returns or raises, the conversation and the
    calls made. *)
Record outcome : Type := {
  answer : result string;
  final_state : run_state
}.

(** [call_llm_with_tools], once the session is set up and has listed the
    tools. [range] of a negative number is empty. *)
Definition call_llm_with_tools (J : json_module) (H : hosts)
    (tools : list tool_definition)
    (messages : list message) (system_prompt : string) (max_iterations : Z)
  : outcome :=
  let st0 := {| current_messages := messages; model_calls := []; tool_calls := [] |} in
  match loop J H system_prompt tools (Z.to_nat max_iterations) st0 with
  | (st, Some r) => {| answer := r; final_state := st |}
  | (st, None) =>
      let '(st', r) := exhausted J H system_prompt st in
      {| answer := r; final_state := st' |}
  end.

(** The texts of the text parts of the assistant messages, in order. *)
Definition assistant_texts (msgs : list message) : list string :=
  flat_map (fun m => match msg_role m, msg_body m with
                     | assistant, Parts ps => part_texts ps
                     | _, _ => []
                     end) msgs.

(** Every assistant message has a list of parts as its content. *)
Definition assistant_bodies_are_parts (msgs : list message) : Prop :=
  forall m, In m msgs -> msg_role m = assistant ->
            exists ps, msg_body m = Parts ps.

Definition is_tool_use_block (b : block) : bool :=
  match b with
  | ToolUseBlock _ _ _ => true
  | _ => false
  end.

Definition is_tool_use (p : part) : bool :=
  match p with
  | ToolUsePart _ _ _ => true
  | _ => false
  end.

Definition initial_state (messages : list message) : run_state :=
  {| current_messages := messages; model_calls := []; tool_calls := [] |}.

Definition question (q : string) : list message :=
  [{| msg_role := user; msg_body := Plain q |}].

(** Hosts for the examples: a model that asks for two tools in every
    response, one that answers with an empty response, one that is throttled,
    one that is down; a tool host that answers, one that fails. *)
Definition tool_answers : nat -> tool_call -> result mcp_result :=
  fun _ _ => Ok (response_of (text_item "1")).


Definition two_tool_uses : list block :=
  [TextBlock "checking"; ToolUseBlock "a" "glue_list_databases" (JObj []);
   TextBlock "then"; ToolUseBlock "b" "glue_list_tables" (JObj [])].

Definition greedy_hosts : hosts :=
  {| create := fun _ _ => Ok two_tool_uses; call_tool := tool_answers |}.

Definition mute_hosts : hosts :=
  {| create := fun _ _ => Ok []; call_tool := tool_answers |}.

Definition throttled_hosts : hosts :=
  {| create := fun _ _ => Raise (OtherError "Error code: 429");
     call_tool := tool_answers |}.

Definition down_hosts : hosts :=
  {| create := fun _ _ => Raise (OtherError "connection refused");
     call_tool := tool_answers |}.

(** A model that asks for a tool until the summary is requested, then
    fails; a model that asks for a tool on a host that fails. *)
Definition summary_fails_hosts : hosts :=
  {| create := fun _ c => match call_tools c with
                          | Some _ => Ok two_tool_uses
                          | None => Raise (OtherError "overloaded")
                          end;
     call_tool := tool_answers |}.


Definition summary_message : message :=
  {| msg_role := user; msg_body := Plain summary_request |}.

(** Texts put one per line: a line break between two texts, none after
    the last. *)
Fixpoint one_per_line (ts : list string) : string :=
  match ts with
  | [] => EmptyString
  | t :: rest =>
      match rest with
      | [] => t
      | _ :: _ => t ++ String (ascii_of_nat 10) (one_per_line rest)
      end
  end.

(** The summary call of a run whose rounds are used up. *)
Definition summary_call (system : string) (st : run_state) : model_call :=
  {| call_system := system;
     call_messages := (current_messages st ++ [summary_message])%list;
     call_tools := None |}.

(** A model that asks for a tool in the rounds and is throttled when the
    summary is asked for. *)
Definition summary_throttled_hosts : hosts :=
  {| create := fun _ c => match call_tools c with
                          | Some _ => Ok two_tool_uses
                          | None => Raise (OtherError "Error code: 429 - rate limit")
                          end;
     call_tool := tool_answers |}.

(** The messages a run appends in its rounds: an assistant message whose
    parts are texts followed by one tool use, then a user message with the
    one tool result of that id, round after round. *)
Inductive paired : list message -> Prop :=
| paired_nil : paired []
| paired_round (texts : list string) (id name : string) (input : json)
    (payload : string) (rest : list message) :
    paired rest ->
    paired ({| msg_role := assistant;
               msg_body := Parts (map TextPart texts ++ [ToolUsePart id name input]) |}
            :: {| msg_role := user;
                  msg_body := Parts [ToolResultPart id payload] |}
            :: rest).

Definition parts_of (m : message) : list part :=
  match msg_body m with
  | Parts ps => ps
  | Plain _ => []
  end.

Definition count_parts (P : part -> bool) (msgs : list message) : nat :=
  length (filter P (flat_map parts_of msgs)).

(** The conversation of a model call of a run started on [messages]: what
    the rounds appended so far, then the summary request for the call made
    after the loop. *)
Definition well_paired_call (messages : list message) (c : model_call) : Prop :=
  exists appended,
    paired appended /\
    (call_messages c = (messages ++ appended)%list \/
     call_messages c = (messages ++ appended ++ [summary_message])%list).

(** The invariant of the loop. *)
Definition loop_invariant (messages : list message) (st : run_state) : Prop :=
  exists appended,
    current_messages st = (messages ++ appended)%list /\
    paired appended /\
    count_parts is_tool_result appended = length (tool_calls st) /\
    count_parts is_tool_use appended = length (tool_calls st) /\
    Forall (well_paired_call messages) (model_calls st).

(** ** aws_mcp_server.py: the remaining tools *)

(** [q = ...["QueryExecution"]], by the two entries the tools read. *)
Record execution : Type := {
  exec_status : query_status;
  OutputLocation : string
}.

Record status_report : Type := {
  report_state : query_state;
  report_output_location : string
}.

(** [athena_status]: [get] answers [get_query_execution]. *)
Definition athena_status (get : string -> result execution)
    (query_execution_id queryExecutionId : option string) : result status_report :=
  match or_id query_execution_id queryExecutionId with
  | Some (String c s) =>
      match get (String c s) with
      | Ok q => Ok {| report_state := State (exec_status q);
                      report_output_location := OutputLocation q |}
      | Raise e => Raise e
      end
  | _ => Raise (ValueError "Provide query_execution_id (or queryExecutionId).")
  end.


(** A running job polled with a pause that [time.sleep] refuses when it is
    negative. *)
Definition hasty_job : athena_env :=
  {| time_reading := seconds;
     sleep := fun w => if (w <? 0)%Z
                       then Some (ValueError "sleep length must be non-negative")
                       else None;
     query_execution := fun _ _ =>
       Ok {| State := RUNNING; StateChangeReason := None |};
     query_results := fun _ _ => Ok [] |}.

(** A page of [get_databases]: the names in its ["DatabaseList"], when the
    key is there. The paginator is the list of its pages, each fetched when
    the loop reaches it, and the fetch may raise. *)
Definition database_page : Type := option (list string).

Record database_listing : Type := {
  databases : list string;
  databases_truncated : bool
}.

Definition page_databases (page : database_page) : list string :=
  match page with
  | Some dbs => dbs
  | None => []
  end.

(** The inner loop of [glue_list_databases] on one page: the names so far
    and whether the function returned. *)
Fixpoint scan_database_list (max_databases : Z) (names : list string)
    (dbs : list string) : list string * bool :=
  match dbs with
  | [] => (names, false)
  | db :: rest =>
      let names' := (names ++ [db])%list in
      if (max_databases <=? Z.of_nat (length names'))%Z then (names', true)
      else scan_database_list max_databases names' rest
  end.

Fixpoint scan_database_pages (max_databases : Z) (names : list string)
    (pages : list (result database_page)) : result database_listing :=
  match pages with
  | [] => Ok {| databases := names; databases_truncated := false |}
  | Raise e :: _ => Raise e
  | Ok page :: pages' =>
      match scan_database_list max_databases names (page_databases page) with
      | (names', true) => Ok {| databases := names'; databases_truncated := true |}
      | (names', false) => scan_database_pages max_databases names' pages'
      end
  end.

Definition glue_list_databases (pages : list (result database_page))
    (max_databases : Z) : result database_listing :=
  scan_database_pages max_databases [] pages.

(** A column of the Glue catalog, a table, and the item built for it. *)
Record glue_column : Type := {
  column_Name : string;
  column_Type : string
}.

Record glue_table : Type := {
  table_Name : string;
  table_Columns : list glue_column;
  table_PartitionKeys : option (list glue_column)
}.

Record schema_column : Type := {
  schema_name : string;
  schema_type : string
}.

Record table_item : Type := {
  item_table : string;
  item_columns : option (list schema_column);
  item_partitions : option (list schema_column)
}.

Record table_listing : Type := {
  listing_database : string;
  listing_tables : list table_item;
  listing_truncated : bool
}.

Definition schema_of (c : glue_column) : schema_column :=
  {| schema_name := column_Name c; schema_type := column_Type c |}.

Definition make_item (include_schema : bool) (t : glue_table) : table_item :=
  if include_schema
  then {| item_table := table_Name t;
          item_columns := Some (map schema_of (table_Columns t));
          item_partitions :=
            Some (map schema_of (match table_PartitionKeys t with
                                 | Some ps => ps
                                 | None => []
                                 end)) |}
  else {| item_table := table_Name t;
          item_columns := None;
          item_partitions := None |}.

Fixpoint scan_table_list (max_tables : Z) (include_schema : bool)
    (tables : list table_item) (count : Z) (ts : list glue_table)
  : list table_item * Z * bool :=
  match ts with
  | [] => (tables, count, false)
  | t :: rest =>
      let tables' := (tables ++ [make_item include_schema t])%list in
      let count' := (count + 1)%Z in
      if (max_tables <=? count')%Z then (tables', count', true)
      else scan_table_list max_tables include_schema tables' count' rest
  end.

Fixpoint scan_table_pages (database : string) (max_tables : Z)
    (include_schema : bool) (tables : list table_item) (count : Z)
    (pages : list (result (list glue_table))) : result table_listing :=
  match pages with
  | [] => Ok {| listing_database := database; listing_tables := tables;
                listing_truncated := false |}
  | Raise e :: _ => Raise e
  | Ok page :: pages' =>
      match scan_table_list max_tables include_schema tables count page with
      | (tables', _, true) =>
          Ok {| listing_database := database; listing_tables := tables';
                listing_truncated := true |}
      | (tables', count', false) =>
          scan_table_pages database max_tables include_schema tables' count' pages'
      end
  end.

(** [glue_list_tables]: [pages] are the pages of the paginator for
    [database], each the content of its ["TableList"]. *)
Definition glue_list_tables (pages : list (result (list glue_table)))
    (database : string) (max_tables : Z) (include_schema : bool)
  : result table_listing :=
  scan_table_pages database max_tables include_schema [] 0%Z pages.

(** The names, or the tables, of the pages that were fetched. *)
Definition fetched_pages {A : Type} (pages : list (result A)) : list A :=
  flat_map (fun p => match p with Ok x => [x] | Raise _ => [] end) pages.

Definition all_pages_ok {A : Type} (pages : list (result A)) : Prop :=
  Forall (fun p => exists x, p = Ok x) pages.

(** The number of entries a listing with the given cap can return: at
    least one, since the cap is compared after an entry is added. *)
Definition cap (max : Z) : nat := Z.to_nat (Z.max 1 max).

(** [path.split("/", 1)] as the two names it is unpacked into: [None] when
    the path has no slash, where the unpacking raises. *)
Fixpoint split_first_slash (path : string) : option (string * string) :=
  match path with
  | EmptyString => None
  | String c rest =>
      if (code c =? 47)%nat then Some (EmptyString, rest)
      else match split_first_slash rest with
           | Some (b, k) => Some (String c b, k)
           | None => None
           end
  end.

(** What [athena_result_csv] runs against: the S3 client and the codecs.
    Bytes are held in a [string], one character per byte. [decode] is
    [data.decode(encoding, errors="replace")], which raises for an encoding
    that is not known. *)
Record s3_env : Type := {
  execution_of : string -> result execution;
  head_object : string -> string -> result Z;
  get_object : string -> string -> option string -> result string;
  decode : string -> string -> result string
}.

Record csv_result : Type := {
  csv_bucket : string;
  csv_key : string;
  content_length : Z;
  csv_truncated : bool;
  csv : string
}.

(** The [Range] argument of [get_object], if one is passed. *)
Definition byte_range (max_bytes : option Z) (total : Z) : option string :=
  match max_bytes with
  | Some m => if ((0 <? m) && (m <? total))%Z
              then Some ("bytes=0-" ++ str_of_Z (m - 1))
              else None
  | None => None
  end.

(** [athena_result_csv]. The failed [assert] is carried by [OtherError]. *)
Definition athena_result_csv (E : s3_env) (query_execution_id : string)
    (max_bytes : option Z) (encoding : string) : result csv_result :=
  match execution_of E query_execution_id with
  | Raise e => Raise e
  | Ok q =>
      let out := OutputLocation q in
      if negb (starts_with "s3://" out)
      then Raise (OtherError ("Unexpected output location: " ++ out))
      else
        match split_first_slash (drop 5 out) with
        | None => Raise (ValueError "not enough values to unpack (expected 2, got 1)")
        | Some (bucket, key) =>
            match head_object E bucket key with
            | Raise e => Raise e
            | Ok total =>
                let range := byte_range max_bytes total in
                let truncated := match range with Some _ => true | None => false end in
                match get_object E bucket key range with
                | Raise e => Raise e
                | Ok data =>
                    let finish (text : string) :=
                      Ok {| csv_bucket := bucket; csv_key := key;
                            content_length := total;
                            csv_truncated := truncated; csv := text |} in
                    match decode E encoding data with
                    | Ok text => finish text
                    | Raise _ =>
                        match decode E "utf-8" data with
                        | Ok text => finish text
                        | Raise e => Raise e
                        end
                    end
                end
            end
        end
  end.

Fixpoint has_slash (s : string) : bool :=
  match s with
  | EmptyString => false
  | String c rest => (code c =? 47)%nat || has_slash rest
  end.

(** An object store with one object, whose reads honour the range, and
    codecs that know UTF-8 only and take the bytes as they are. *)
Definition one_object_store (location data : string) : s3_env :=
  {| execution_of := fun _ =>
       Ok {| exec_status := {| State := SUCCEEDED; StateChangeReason := None |};
             OutputLocation := location |};
     head_object := fun _ _ => Ok (Z.of_nat (String.length data));
     get_object := fun _ _ range =>
       match range with
       | Some _ => Ok (substring 0 2 data)
       | None => Ok data
       end;
     decode := fun enc bytes =>
       if String.eqb enc "utf-8" then Ok bytes
       else Raise (OtherError "unknown encoding") |}.

(** ** llm_bot.py: the Slack handlers *)

(** The characters [str.strip] removes, among the code points below 256. *)
Definition is_space (c : ascii) : bool :=
  let n := code c in
  in_range 9 13 c || in_range 28 32 c || (n =? 133)%nat || (n =? 160)%nat.

Fixpoint lstrip (s : string) : string :=
  match s with
  | EmptyString => EmptyString
  | String c rest => if is_space c then lstrip rest else s
  end.

Fixpoint rstrip (s : string) : string :=
  match s with
  | EmptyString => EmptyString
  | String c rest =>
      match rstrip rest with
      | EmptyString => if is_space c then EmptyString else String c EmptyString
      | String d rest' => String c (String d rest')
      end
  end.

Definition strip (s : string) : string := rstrip (lstrip s).

Definition REFRESH_WORDS : list string :=
  ["refresh"; "reset"; "clear"; "new conversation"; "refresh conversation"].

(** What a handler sends back. The fixed texts hold characters above the
    modelled code points, so a reply is held by its kind and by the text
    put into it. *)
Inductive reply : Type :=
| AskForQuestion
| Refreshed
| Analyzing (question : string)
| Answer (answer_text : string)
| ErrorReply (msg : string)
| Greeting
| MentionHello
| Processing (txt : string)
| MentionError (msg : string).

(** [ask_data]: [text] is [body.get("text")], [system] the system prompt
    formatted with the date of the day. The replies sent, in order, and the
    run made, if any. *)
Definition ask_data (J : json_module) (H : hosts) (tools : list tool_definition)
    (system : string) (text : option string) : list reply * option outcome :=
  let question := strip (match text with
                         | Some (String c t) => String c t
                         | _ => EmptyString
                         end) in
  match question with
  | EmptyString => ([AskForQuestion], None)
  | String _ _ =>
      if existsb (String.eqb (strip (str_lower question))) REFRESH_WORDS
      then ([Refreshed], None)
      else
        let out := call_llm_with_tools J H tools
                     [{| msg_role := user; msg_body := Plain question |}]
                     system 10 in
        match answer out with
        | Ok a => ([Analyzing question; Answer a], Some out)
        | Raise e => ([Analyzing question; ErrorReply (exn_str e)], Some out)
        end
  end.

(** [handle_message]: the fields of the event the handler reads, each
    there or not. It replies to a direct message of a person that has a
    text, and to nothing else. *)
Record message_event : Type := {
  ev_subtype : option string;
  ev_bot_id : option string;
  ev_channel_type : option string;
  ev_text : option string
}.

Definition handle_message (ev : message_event) : list reply :=
  if truthy_id (ev_subtype ev) || truthy_id (ev_bot_id ev) then []
  else
    match ev_channel_type ev with
    | Some ct =>
        if String.eqb ct "im" then
          match strip (match ev_text ev with Some t => t | None => EmptyString end) with
          | EmptyString => []
          | String _ _ => [Greeting]
          end
        else []
    | None => []
    end.

Fixpoint all_space (s : string) : bool :=
  match s with
  | EmptyString => true
  | String c rest => is_space c && all_space rest
  end.

(** [re.findall(r'<@([A-Z0-9]+)>', raw)], by its first match. The class
    holds no [>], so the longest run of id characters is the only one that
    can be followed by it. *)
Definition is_id_char (c : ascii) : bool := is_ascii_upper c || is_ascii_digit c.

Fixpoint take_id (s : string) : string * string :=
  match s with
  | String c rest =>
      if is_id_char c
      then let '(id, r) := take_id rest in (String c id, r)
      else (EmptyString, s)
  | EmptyString => (EmptyString, s)
  end.

Definition match_mention (s : string) : option string :=
  match s with
  | String a (String b rest) =>
      if ((code a =? 60) && (code b =? 64))%nat then
        match take_id rest with
        | (String c id, String d _) =>
            if (code d =? 62)%nat then Some (String c id) else None
        | _ => None
        end
      else None
  | _ => None
  end.

Fixpoint first_mention (s : string) : option string :=
  match match_mention s with
  | Some id => Some id
  | None => match s with
            | String _ rest => first_mention rest
            | EmptyString => None
            end
  end.

(** [s.replace(old, "")] for a non-empty [old]: the occurrences are taken
    from the left and do not overlap. *)
Fixpoint remove_all (fuel : nat) (old s : string) : string :=
  match fuel with
  | O => s
  | S f =>
      if starts_with old s then remove_all f old (drop (String.length old) s)
      else match s with
           | EmptyString => EmptyString
           | String c rest => String c (remove_all f old rest)
           end
  end.

Definition str_replace_empty (old s : string) : string :=
  remove_all (S (String.length s)) old s.

(** The bot id of [handle_mentions]: the first of the [authed_users] when
    there is one and it is not empty, else the first mention in the text. *)
Definition mention_bot_id (authed_users : option (list string)) (raw : string)
  : option string :=
  match authed_users with
  | Some (String c u :: _) => Some (String c u)
  | _ => first_mention raw
  end.

(** The text of the mention once the bot's mention is taken out of it,
    before it is stripped. *)
Definition mention_text (authed_users : option (list string)) (raw : string) : string :=
  match mention_bot_id authed_users raw with
  | Some bot_id => str_replace_empty ("<@" ++ bot_id ++ ">") raw
  | None => str_replace_empty "<@U1234567890>" raw
  end.

(** [handle_mentions]: [text] is the text of the event. *)
Definition handle_mentions (J : json_module) (H : hosts) (tools : list tool_definition)
    (system : string) (authed_users : option (list string)) (text : option string)
  : list reply * option outcome :=
  let raw := match text with Some t => t | None => EmptyString end in
  let txt := strip (mention_text authed_users raw) in
  match txt with
  | EmptyString => ([MentionHello], None)
  | String _ _ =>
      if existsb (String.eqb (strip (str_lower txt))) REFRESH_WORDS
      then ([Refreshed], None)
      else
        let out := call_llm_with_tools J H tools
                     [{| msg_role := user; msg_body := Plain txt |}]
                     system 10 in
        match answer out with
        | Ok a => ([Processing txt; Answer a], Some out)
        | Raise e => ([Processing txt; MentionError (exn_str e)], Some out)
        end
  end.

Fixpoint has_char (n : nat) (s : string) : bool :=
  match s with
  | EmptyString => false
  | String c rest => (code c =? n)%nat || has_char n rest
  end.

(** The reply of [ask_data] that stands where a reply of
    [handle_mentions] stands. *)
Definition as_command_reply (r : reply) : reply :=
  match r with
  | MentionHello => AskForQuestion
  | Processing t => Analyzing t
  | MentionError m => ErrorReply m
  | other => other
  end.

(** * Properties *)

(** ** The SQL guard *)

Lemma in_all_ascii (c : ascii) : In c all_ascii.
Proof.
  unfold all_ascii. rewrite <- (ascii_nat_embedding c).
  apply in_map, in_seq. pose proof (nat_ascii_bounded c). lia.
Qed.

Lemma upper_fold_is_word (p c : ascii) :
  is_ascii_upper p = true -> lower c = lower p -> is_word c = true.
Proof.
  assert (H : forallb (fun p => forallb (fun c =>
            implb (is_ascii_upper p && Ascii.eqb (lower c) (lower p)) (is_word c))
            all_ascii) all_ascii = true) by (vm_compute; reflexivity).
  intros Hp Hc. rewrite forallb_forall in H.
  specialize (H p (in_all_ascii p)). rewrite forallb_forall in H.
  specialize (H c (in_all_ascii c)).
  rewrite Hp, Hc, Ascii.eqb_refl in H. exact H.
Qed.

Lemma fold_all_word (w : string) :
  all_chars is_ascii_upper w = true ->
  forall mid, str_lower mid = str_lower w -> all_chars is_word mid = true.
Proof.
  induction w as [|p w IH]; intros Hw mid Hm; destruct mid as [|c mid];
    simpl in *; try discriminate; auto.
  apply andb_true_iff in Hw as [Hp Hw]. injection Hm as Hc Hm.
  rewrite (upper_fold_is_word p c Hp Hc). simpl. auto.
Qed.

Lemma fold_nonempty (w mid : string) :
  str_lower mid = str_lower w -> w <> EmptyString -> mid <> EmptyString.
Proof. destruct w, mid; simpl; congruence. Qed.

Lemma all_word_head (s : string) :
  all_chars is_word s = true -> s <> EmptyString -> is_word_opt (head s) = true.
Proof.
  destruct s as [|c s]; [congruence|]. simpl.
  intros H _. apply andb_true_iff in H. tauto.
Qed.

Lemma all_word_last (s : string) :
  all_chars is_word s = true -> s <> EmptyString -> is_word_opt (last_char s) = true.
Proof.
  induction s as [|c s IH]; [congruence|]. simpl. intros H _.
  apply andb_true_iff in H as [Hc Hs].
  destruct s as [|d s]; [simpl; exact Hc|].
  assert (Hl : is_word_opt (last_char (String d s)) = true)
    by (apply IH; [exact Hs | discriminate]).
  destruct (last_char (String d s)); [exact Hl | discriminate].
Qed.

Lemma sql_words_shape (w : string) :
  In w SQL_WORDS -> all_chars is_ascii_upper w = true /\ w <> EmptyString.
Proof.
  unfold SQL_WORDS. simpl.
  intros H; repeat (destruct H as [<- | H]; [split; [reflexivity | discriminate]|]).
  contradiction.
Qed.

Lemma last_from_cons (prev : option ascii) (c : ascii) (pre : string) :
  last_from prev (String c pre) = last_from (Some c) pre.
Proof. unfold last_from. simpl. destruct (last_char pre); reflexivity. Qed.

Lemma match_literal_sound (w : string) :
  forall s prev l rest,
    match_literal w s prev = Some (l, rest) ->
    exists mid, s = mid ++ rest /\ str_lower mid = str_lower w /\
                l = last_from prev mid.
Proof.
  induction w as [|p w IH]; simpl; intros s prev l rest H.
  - injection H as <- <-. exists EmptyString. auto.
  - destruct s as [|c s]; [discriminate|].
    destruct (ieq p c) eqn:E; [|discriminate].
    apply IH in H as (mid & -> & Hm & ->).
    exists (String c mid). simpl. rewrite last_from_cons.
    unfold ieq in E. apply Ascii.eqb_eq in E. rewrite Hm, E. auto.
Qed.

Lemma match_literal_complete (w : string) :
  forall mid rest prev,
    str_lower mid = str_lower w ->
    match_literal w (mid ++ rest) prev = Some (last_from prev mid, rest).
Proof.
  induction w as [|p w IH]; intros [|c mid] rest prev H; simpl in *;
    try discriminate; auto.
  injection H as Hc Hm. unfold ieq. rewrite Hc, Ascii.eqb_refl.
  rewrite (IH mid rest (Some c) Hm), last_from_cons. reflexivity.
Qed.

Lemma match_at_iff (prev : option ascii) (s : string) :
  match_at prev s = true <->
  exists mid post w,
    s = mid ++ post /\ In w SQL_WORDS /\ str_lower mid = str_lower w /\
    is_word_opt prev = false /\ is_word_opt (head post) = false.
Proof.
  unfold match_at. rewrite andb_true_iff, existsb_exists. split.
  - intros [Hb (w & Hw & Hm)].
    destruct (match_literal w s prev) as [[l rest]|] eqn:E; [|discriminate].
    apply match_literal_sound in E as (mid & -> & Hmid & ->).
    destruct (sql_words_shape w Hw) as [Hup Hne].
    pose proof (fold_all_word w Hup mid Hmid) as Hall.
    pose proof (fold_nonempty w mid Hmid Hne) as Hmne.
    pose proof (all_word_last mid Hall Hmne) as Hl.
    pose proof (all_word_head mid Hall Hmne) as Hh.
    exists mid, rest, w. repeat split; auto.
    + unfold boundary in Hb.
      destruct mid as [|c mid]; [congruence|]. simpl in Hb, Hh.
      rewrite Hh in Hb. destruct (is_word_opt prev); [discriminate | reflexivity].
    + unfold boundary, last_from in Hm.
      destruct (last_char mid) as [d|]; [|discriminate].
      rewrite Hl in Hm. destruct (is_word_opt (head rest)); [discriminate | reflexivity].
  - intros (mid & post & w & -> & Hw & Hmid & Hp & Hq).
    destruct (sql_words_shape w Hw) as [Hup Hne].
    pose proof (fold_all_word w Hup mid Hmid) as Hall.
    pose proof (fold_nonempty w mid Hmid Hne) as Hmne.
    pose proof (all_word_last mid Hall Hmne) as Hl.
    pose proof (all_word_head mid Hall Hmne) as Hh.
    split.
    + unfold boundary. destruct mid as [|c mid]; [congruence|].
      simpl in *. rewrite Hp, Hh. reflexivity.
    + exists w. split; [exact Hw|].
      rewrite (match_literal_complete w mid post prev Hmid).
      unfold boundary, last_from.
      destruct (last_char mid) as [d|]; [|discriminate].
      rewrite Hl, Hq. reflexivity.
Qed.

Lemma search_from_iff (s : string) :
  forall prev,
    search_from prev s = true <->
    exists pre mid post w,
      s = pre ++ mid ++ post /\ In w SQL_WORDS /\ str_lower mid = str_lower w /\
      is_word_opt (last_from prev pre) = false /\ is_word_opt (head post) = false.
Proof.
  induction s as [|c s IH]; intros prev; simpl search_from;
    rewrite orb_true_iff, match_at_iff.
  - split.
    + intros [(mid & post & w & H)|H]; [|discriminate].
      exists EmptyString, mid, post, w. exact H.
    + intros (pre & mid & post & w & Hs & H). left.
      destruct pre as [|d pre]; [|discriminate].
      exists mid, post, w. split; [exact Hs | exact H].
  - rewrite IH. split.
    + intros [(mid & post & w & H)|(pre & mid & post & w & Hs & Hw & Hm & Hp & Hq)].
      * exists EmptyString, mid, post, w. exact H.
      * exists (String c pre), mid, post, w. rewrite last_from_cons.
        simpl. rewrite Hs. auto.
    + intros (pre & mid & post & w & Hs & Hw & Hm & Hp & Hq).
      destruct pre as [|d pre].
      * left. exists mid, post, w. auto.
      * right. simpl in Hs. injection Hs as -> ->.
        rewrite last_from_cons in Hp. exists pre, mid, post, w. auto.
Qed.

Lemma SQL_BLOCK_iff (sql : string) :
  SQL_BLOCK sql = true <-> contains_blocked_word sql.
Proof.
  unfold SQL_BLOCK, contains_blocked_word. rewrite search_from_iff.
  unfold last_from. split; intros (pre & mid & post & w & Hs & Hw & Hm & Hp & Hq);
    exists pre, mid, post, w; repeat split; auto;
    destruct (last_char pre); auto.
Qed.

Example guard_rejects_mixed_case : SQL_BLOCK "select 1; dRoP table t" = true.
Proof. reflexivity. Qed.

Example guard_passes_column_name : SQL_BLOCK "select created_at, updates from t" = false.
Proof. reflexivity. Qed.

Example guard_passes_underscore : SQL_BLOCK "select DROP_count from t" = false.
Proof. reflexivity. Qed.

(** C1: a statement holding one of the ten blocked words as a whole word,
    in any letter case and at any position, makes [athena_query] raise the
    validation error with no call on the Athena client; a statement holding
    none of them passes the guard, and [start_query_execution] is called
    with it. *)
Theorem athena_query_guard (backend : string -> result string) (sql : string) :
  (contains_blocked_word sql ->
   athena_query backend sql
   = (Raise (ValueError "Only SELECT/EXPLAIN allowed."), [])) /\
  (~ contains_blocked_word sql ->
   athena_query backend sql = (backend sql, [start_query_execution sql])).
Proof.
  unfold athena_query. split; intros H.
  - apply SQL_BLOCK_iff in H. rewrite H. reflexivity.
  - destruct (SQL_BLOCK sql) eqn:E; [|reflexivity].
    apply SQL_BLOCK_iff in E. contradiction.
Qed.

Lemma athena_query_guard_witness :
  contains_blocked_word "select 1; Drop table t" /\
  athena_query (fun _ => Ok "q-1") "select 1; Drop table t"
  = (Raise (ValueError "Only SELECT/EXPLAIN allowed."), []).
Proof.
  assert (H : contains_blocked_word "select 1; Drop table t").
  { exists "select 1; ", "Drop", " table t", "DROP".
    repeat split; simpl; auto 10. }
  split; [exact H|].
  exact (proj1 (athena_query_guard (fun _ => Ok "q-1") "select 1; Drop table t") H).
Defined.

(** ** The poller *)

Lemma poll_loop_round (env : athena_env) (qid : string)
    (wait_ms max_wait_s : Z) (fuel i : nat) :
  sleep env wait_ms = None ->
  pending env qid i -> within_budget env max_wait_s i ->
  poll_loop (S fuel) env qid wait_ms max_wait_s (time_reading env 0) i
  = poll_loop fuel env qid wait_ms max_wait_s (time_reading env 0) (S i).
Proof.
  intros Hw (q & Hq & Hst) Hb. simpl. rewrite Hq.
  unfold within_budget in Hb. rewrite Hb, Hw.
  destruct Hst as [-> | ->]; reflexivity.
Qed.

Lemma poll_loop_rounds (env : athena_env) (qid : string)
    (wait_ms max_wait_s : Z) (n : nat) :
  ((0 < n)%nat -> sleep env wait_ms = None) ->
  forall fuel i,
    (forall j, (i <= j < i + n)%nat ->
               pending env qid j /\ within_budget env max_wait_s j) ->
    poll_loop (n + fuel) env qid wait_ms max_wait_s (time_reading env 0) i
    = poll_loop fuel env qid wait_ms max_wait_s (time_reading env 0) (i + n).
Proof.
  intros Hw. induction n as [|n IH]; intros fuel i H.
  - simpl. rewrite Nat.add_0_r. reflexivity.
  - change (S n + fuel)%nat with (S (n + fuel)).
    destruct (H i ltac:(lia)) as [Hp Hb].
    assert (Hs : sleep env wait_ms = None) by (apply Hw; lia).
    rewrite (poll_loop_round env qid wait_ms max_wait_s _ i Hs Hp Hb).
    rewrite IH; [f_equal; lia | intros _; exact Hs | intros j Hj; apply H; lia].
Qed.

(** C6: a poll that reports FAILED or CANCELLED, all earlier polls having
    found the job pending with the elapsed time not above [max_wait_s],
    makes [athena_results] raise the run-time error whose message carries
    the reason given by the service; a job that is pending at every poll
    makes it raise the time-out error in the first round in which the
    elapsed time, the float difference of the clock readings, is above
    [max_wait_s], the comparison being made in every round; the two errors
    are distinct. When the poll in question is not the first, the pause
    between two polls is taken to return. *)
Theorem athena_results_failure_and_timeout
    (env : athena_env) (id1 id2 : option string) (qid : string)
    (max_rows wait_ms max_wait_s : Z)
    (Hid : or_id id1 id2 = Some qid) (Hne : qid <> EmptyString) :
  (forall k q,
      ((0 < k)%nat -> sleep env wait_ms = None) ->
      (forall i, (i < k)%nat ->
                 pending env qid i /\ within_budget env max_wait_s i) ->
      query_execution env qid k = Ok q ->
      State q = FAILED \/ State q = CANCELLED ->
      forall fuel, (k < fuel)%nat ->
        athena_results env fuel id1 id2 max_rows wait_ms max_wait_s
        = Some (Raise (RuntimeError
            ("Athena " ++ state_name (State q) ++ ": " ++ reason_or_empty q)))) /\
  (forall k,
      ((0 < k)%nat -> sleep env wait_ms = None) ->
      (forall i, pending env qid i) ->
      (forall i, (i < k)%nat -> within_budget env max_wait_s i) ->
      ~ within_budget env max_wait_s k ->
      forall fuel, (k < fuel)%nat ->
        athena_results env fuel id1 id2 max_rows wait_ms max_wait_s
        = Some (Raise (TimeoutError "Athena query timed out"))) /\
  (forall m m', RuntimeError m <> TimeoutError m').
Proof.
  assert (Hrun : forall fuel,
    athena_results env fuel id1 id2 max_rows wait_ms max_wait_s
    = match poll_loop fuel env qid wait_ms max_wait_s (time_reading env 0) 0 with
      | None => None
      | Some (Raise e) => Some (Raise e)
      | Some (Ok _) =>
          match query_results env qid max_rows with
          | Raise e => Some (Raise e)
          | Ok fetched => Some (Ok (shape_results fetched))
          end
      end).
  { intros fuel. unfold athena_results. rewrite Hid.
    destruct qid; [congruence | reflexivity]. }
  split; [|split].
  - intros k q Hsleep Hbefore Hq Hst fuel Hk. rewrite Hrun.
    replace fuel with (k + S (fuel - S k))%nat by lia.
    rewrite (poll_loop_rounds env qid wait_ms max_wait_s k Hsleep _ 0%nat);
      [|intros j Hj; apply Hbefore; lia].
    simpl. rewrite Hq. destruct Hst as [-> | ->]; reflexivity.
  - intros k Hsleep Hpend Hbefore Hlate fuel Hk. rewrite Hrun.
    replace fuel with (k + S (fuel - S k))%nat by lia.
    rewrite (poll_loop_rounds env qid wait_ms max_wait_s k Hsleep _ 0%nat);
      [|intros j Hj; split; [apply Hpend | apply Hbefore; lia]].
    simpl. destruct (Hpend k) as (q & Hq & Hst). rewrite Hq.
    unfold within_budget in Hlate.
    destruct (timed_out (time_reading env (S k)) (time_reading env 0) max_wait_s);
      [|congruence].
    destruct Hst as [-> | ->]; reflexivity.
  - intros m m'. discriminate.
Qed.

Lemma athena_results_failure_and_timeout_witness :
  athena_results failing_job 5 (Some "q1") None 1000 400 10
  = Some (Raise (RuntimeError "Athena FAILED: boom")) /\
  athena_results slow_job 5 (Some "q1") None 1000 400 1
  = Some (Raise (TimeoutError "Athena query timed out")).
Proof.
  split.
  - refine (proj1 (athena_results_failure_and_timeout failing_job
                     (Some "q1") None "q1" 1000 400 10 eq_refl _)
                  2%nat {| State := FAILED; StateChangeReason := Some "boom" |}
                  (fun _ => eq_refl) _ eq_refl (or_introl eq_refl) 5%nat _).
    + discriminate.
    + intros i Hi. split.
      * exists {| State := RUNNING; StateChangeReason := None |}.
        destruct i as [|[|i]]; [split; auto .. | lia].
      * destruct i as [|[|i]]; [vm_compute; reflexivity .. | lia].
    + lia.
  - refine (proj1 (proj2 (athena_results_failure_and_timeout slow_job
                     (Some "q1") None "q1" 1000 400 1 eq_refl _))
                  1%nat (fun _ => eq_refl) _ _ _ 5%nat _).
    + discriminate.
    + intros i. exists {| State := RUNNING; StateChangeReason := None |}. auto.
    + intros i Hi. assert (i = 0%nat) by lia. subst i. vm_compute. reflexivity.
    + vm_compute. discriminate.
    + lia.
Defined.

(** ** The result fetcher *)

Lemma shape_results_length (fetched : list row) :
  length (rows (shape_results fetched)) = (length fetched - 1)%nat.
Proof.
  destruct fetched as [|r0 [|r1 rest]]; simpl; auto.
  rewrite !length_map. reflexivity.
Qed.

Lemma map_data_cell_id (l : list row) : map (map data_cell) l = l.
Proof.
  induction l as [|r l IH]; simpl; [reflexivity|].
  unfold data_cell at 1. rewrite map_id, IH. reflexivity.
Qed.

(** C10: when the poll succeeds and the rows are fetched, the first
    fetched row is the header: the columns are its cells with a missing
    value read as the empty string, the rows are the remaining fetched rows
    in order with a missing value read as null, so they are at most
    [max_rows - 1] when the service returns at most [max_rows] rows; an
    empty fetched list gives no columns and no rows, and no error. *)
Theorem athena_results_header_and_rows
    (env : athena_env) (fuel : nat) (id1 id2 : option string) (qid : string)
    (max_rows wait_ms max_wait_s : Z) (fetched : list row)
    (Hid : or_id id1 id2 = Some qid) (Hne : qid <> EmptyString)
    (Hpoll : poll_loop fuel env qid wait_ms max_wait_s (time_reading env 0) 0
             = Some (Ok tt))
    (Hfetch : query_results env qid max_rows = Ok fetched) :
  exists rs,
    athena_results env fuel id1 id2 max_rows wait_ms max_wait_s = Some (Ok rs) /\
    columns rs = map (fun c => match c with Some v => v | None => EmptyString end)
                     (hd [] fetched) /\
    rows rs = tl fetched /\
    ((1 <= max_rows)%Z -> (Z.of_nat (length fetched) <= max_rows)%Z ->
     (Z.of_nat (length (rows rs)) <= max_rows - 1)%Z) /\
    (fetched = [] -> columns rs = [] /\ rows rs = []).
Proof.
  exists (shape_results fetched). split; [|split; [|split; [|split]]].
  - unfold athena_results. rewrite Hid.
    destruct qid; [congruence|]. rewrite Hpoll, Hfetch. reflexivity.
  - destruct fetched; reflexivity.
  - destruct fetched as [|r0 [|r1 rest]]; [reflexivity ..|].
    exact (map_data_cell_id (r1 :: rest)).
  - intros H1 Hlen. rewrite shape_results_length. lia.
  - intros ->. split; reflexivity.
Qed.

Lemma athena_results_header_and_rows_witness :
  exists rs,
    athena_results finished_job 1 None (Some "q1") 1000 400 60 = Some (Ok rs) /\
    columns rs = ["a"; EmptyString] /\
    rows rs = [[Some "1"; None]] /\
    ((1 <= 1000)%Z -> (2 <= 1000)%Z ->
     (Z.of_nat (length (rows rs)) <= 1000 - 1)%Z) /\
    ([[Some "a"; None]; [Some "1"; None]] = [] -> columns rs = [] /\ rows rs = []).
Proof.
  refine (athena_results_header_and_rows finished_job 1 None (Some "q1") "q1"
            1000 400 60 [[Some "a"; None]; [Some "1"; None]]
            eq_refl _ eq_refl eq_refl).
  discriminate.
Defined.

(** ** The tool-result extractor *)

Lemma extract_items_skip (J : json_module) (skipped rest : list content_item) :
  Forall (fun it => extract_item J it = None) skipped ->
  extract_items J (skipped ++ rest)%list = extract_items J rest.
Proof.
  induction 1 as [|it skipped Hit _ IH]; simpl; [reflexivity|].
  rewrite Hit. exact IH.
Qed.

Lemma unwrap_text_cases (J : json_module) (v : json) :
  unwrap_text J v
  = match text_field v with
    | Some s => match loads J s with
                | Decoded inner => Ok inner
                | JSONDecodeError _ => Ok v
                | LoadsError e => Raise e
                end
    | None => Ok v
    end.
Proof.
  unfold unwrap_text, text_field. destruct v; try reflexivity.
  destruct (dict_get "text" fields) as [[]|]; reflexivity.
Qed.

Lemma extract_item_text_only (J : json_module) (item : content_item) (t : string) :
  text_only item t ->
  extract_item J item
  = Some (match loads J t with
          | Decoded parsed =>
              match unwrap_text J parsed with
              | Ok v => v
              | Raise _ => JObj [("text", JStr t)]
              end
          | _ => JObj [("text", JStr t)]
          end).
Proof.
  intros (Hd & Hj & Ht & Hne). unfold extract_item. rewrite Hd, Ht.
  destruct t as [|c t]; [congruence|].
  destruct Hj as [-> | (v & -> & ->)];
    (destruct (loads J (String c t)) as [parsed| |]; [|reflexivity ..];
     destruct (unwrap_text J parsed); reflexivity).
Qed.

(** C7 (amended): the extractor is a total function, it gives a value for
    every response. When the first item it does not skip carries only a
    text, the text is decoded; a decoded dict with a string under ["text"]
    has that string decoded in turn and the inner value is preferred; when
    the inner string is not JSON the outer value is returned; when the text
    itself does not decode, or the decoding of the inner string raises
    anything but the decode error, the result is the dict with the raw text
    under ["text"]. The text [{"text": "{\"a\":1}"}] gives [{"a": 1}] and
    the text [hello] gives [{"text": "hello"}]. An item that has
    [model_dump_json] is read from its dump instead: the dump is decoded and
    unwrapped once, the decoded dump being returned when its text is not
    JSON, and any other failure of a decoding gives the dict with the
    message of the exception under ["error"]. *)
Theorem extract_tool_result_text_items (J : json_module) :
  (forall (skipped rest : list content_item) (item : content_item) (t : string),
      Forall (fun it => extract_item J it = None) skipped ->
      text_only item t ->
      let out := extract_tool_result J {| content := Some (skipped ++ item :: rest)%list |} in
      (forall msg, loads J t = JSONDecodeError msg -> out = JObj [("text", JStr t)]) /\
      (forall e, loads J t = LoadsError e -> out = JObj [("text", JStr t)]) /\
      (forall v, loads J t = Decoded v -> text_field v = None -> out = v) /\
      (forall v s inner, loads J t = Decoded v -> text_field v = Some s ->
                         loads J s = Decoded inner -> out = inner) /\
      (forall v s msg, loads J t = Decoded v -> text_field v = Some s ->
                       loads J s = JSONDecodeError msg -> out = v) /\
      (forall v s e, loads J t = Decoded v -> text_field v = Some s ->
                     loads J s = LoadsError e -> out = JObj [("text", JStr t)])) /\
  (forall (rest : list content_item) (item : content_item) (d : string),
      model_dump_json item = Some (Ok d) ->
      extract_tool_result J {| content := Some (item :: rest) |}
      = match loads J d with
        | Decoded v =>
            match text_field v with
            | Some s => match loads J s with
                        | Decoded inner => inner
                        | JSONDecodeError _ => v
                        | LoadsError e => JObj [("error", JStr (exn_str e))]
                        end
            | None => v
            end
        | JSONDecodeError msg => JObj [("error", JStr msg)]
        | LoadsError e => JObj [("error", JStr (exn_str e))]
        end) /\
  extract_tool_result py_json (response_of (text_item wrapped_a1))
  = JObj [("a", JNum 1)] /\
  extract_tool_result py_json (response_of (text_item "hello"))
  = JObj [("text", JStr "hello")].
Proof.
  split; [|split; [|split]].
  - intros skipped rest item t Hskip Honly out.
    assert (Hout : out = match loads J t with
                         | Decoded parsed =>
                             match unwrap_text J parsed with
                             | Ok v => v
                             | Raise _ => JObj [("text", JStr t)]
                             end
                         | _ => JObj [("text", JStr t)]
                         end).
    { unfold out, extract_tool_result. cbn [content].
      rewrite extract_items_skip by exact Hskip. simpl.
      rewrite (extract_item_text_only J item t Honly). reflexivity. }
    rewrite Hout. repeat split.
    + intros msg ->. reflexivity.
    + intros e ->. reflexivity.
    + intros v -> Hf. rewrite unwrap_text_cases, Hf. reflexivity.
    + intros v s inner -> Hf Hs. rewrite unwrap_text_cases, Hf, Hs. reflexivity.
    + intros v s msg -> Hf Hs. rewrite unwrap_text_cases, Hf, Hs. reflexivity.
    + intros v s e -> Hf Hs. rewrite unwrap_text_cases, Hf, Hs. reflexivity.
  - intros rest item d Hd. unfold extract_tool_result. simpl.
    unfold extract_item. rewrite Hd.
    destruct (loads J d) as [v| |]; try reflexivity.
    rewrite unwrap_text_cases.
    destruct (text_field v) as [s|]; [|reflexivity].
    destruct (loads J s); reflexivity.
  - vm_compute. reflexivity.
  - vm_compute. reflexivity.
Qed.

Lemma extract_tool_result_text_items_witness :
  extract_tool_result py_json {| content := Some ([] ++ text_item "hello" :: [])%list |}
  = JObj [("text", JStr "hello")].
Proof.
  refine (proj1 (proj1 (extract_tool_result_text_items py_json)
                   [] [] (text_item "hello") "hello" (Forall_nil _) _)
                "Expecting value" eq_refl).
  repeat split; auto. discriminate.
Defined.

(** C7, as stated, fails on the items the MCP client delivers: they have
    [model_dump_json], so the text [{"text": "{\"a\":1}"}] is unwrapped once
    only, and the text [hello] comes back inside the decoded dump. *)
Lemma extract_tool_result_pydantic_counterexample :
  extract_tool_result py_json (response_of (pydantic_text_item wrapped_a1))
  = JObj [("text", JStr ("{" ++ quoted "a" ++ ":1}"))] /\
  extract_tool_result py_json (response_of (pydantic_text_item wrapped_a1))
  <> JObj [("a", JNum 1)] /\
  extract_tool_result py_json (response_of (pydantic_text_item "hello"))
  <> JObj [("text", JStr "hello")].
Proof.
  split; [vm_compute; reflexivity|].
  split; vm_compute; discriminate.
Qed.

(** ** The orchestrator: one round *)

Lemma scan_response_no_tool (blocks : list block) :
  existsb is_tool_use_block blocks = false ->
  scan_response blocks = (map TextPart (block_texts blocks), None).
Proof.
  induction blocks as [|b bs IH]; simpl; [reflexivity|].
  destruct b as [[|c t]| |]; simpl; try discriminate; intros Hn;
    rewrite (IH Hn); reflexivity.
Qed.

Lemma scan_response_first_tool (pre post : list block) (id name : string) (input : json) :
  existsb is_tool_use_block pre = false ->
  scan_response (pre ++ ToolUseBlock id name input :: post)
  = ((map TextPart (block_texts pre) ++ [ToolUsePart id name input])%list,
     Some (id, {| called_name := name; called_input := input |})).
Proof.
  induction pre as [|b bs IH]; simpl; [reflexivity|].
  destruct b as [[|c t]| |]; simpl; try discriminate; intros Hn;
    rewrite (IH Hn); reflexivity.
Qed.

(** C3 (amended): in a response whose first tool use comes after the
    blocks [pre], the round dispatches that tool use and no other, and the
    assistant message it appends holds the non-empty texts of [pre]
    followed by that tool use: the blocks after it, tool uses included, are
    neither recorded nor dispatched. *)
Theorem iteration_first_tool_use_only
    (J : json_module) (H : hosts) (system : string)
    (tools : list tool_definition) (st : run_state)
    (pre post : list block) (id name : string) (input : json) :
  create H (length (model_calls st))
         {| call_system := system; call_messages := current_messages st;
            call_tools := Some tools |}
  = Ok (pre ++ ToolUseBlock id name input :: post)%list ->
  existsb is_tool_use_block pre = false ->
  exists payload,
    iteration J H system tools st
    = ({| current_messages :=
            (current_messages st
             ++ [{| msg_role := assistant;
                    msg_body := Parts (map TextPart (block_texts pre)
                                       ++ [ToolUsePart id name input]) |};
                 tool_result_message id payload])%list;
          model_calls :=
            (model_calls st
             ++ [{| call_system := system; call_messages := current_messages st;
                    call_tools := Some tools |}])%list;
          tool_calls :=
            (tool_calls st
             ++ [{| called_name := name; called_input := input |}])%list |},
       Continue).
Proof.
  intros Hc Hpre. unfold iteration. rewrite Hc.
  rewrite (scan_response_first_tool pre post id name input Hpre).
  eexists. reflexivity.
Qed.

Lemma iteration_first_tool_use_only_witness :
  exists payload,
    iteration py_json greedy_hosts "sys" [] (initial_state (question "q"))
    = ({| current_messages :=
            (question "q"
             ++ [{| msg_role := assistant;
                    msg_body := Parts [TextPart "checking";
                                       ToolUsePart "a" "glue_list_databases" (JObj [])] |};
                 tool_result_message "a" payload])%list;
          model_calls :=
            [{| call_system := "sys"; call_messages := question "q";
                call_tools := Some [] |}];
          tool_calls :=
            [{| called_name := "glue_list_databases"; called_input := JObj [] |}] |},
       Continue).
Proof.
  exact (iteration_first_tool_use_only py_json greedy_hosts "sys" []
           (initial_state (question "q"))
           [TextBlock "checking"]
           [TextBlock "then"; ToolUseBlock "b" "glue_list_tables" (JObj [])]
           "a" "glue_list_databases" (JObj []) eq_refl eq_refl).
Defined.

(** C3, as stated, fails: the second tool use of a response is not
    recorded in the assistant message appended to the conversation. *)
Lemma second_tool_use_not_recorded :
  In (ToolUseBlock "b" "glue_list_tables" (JObj [])) two_tool_uses /\
  forall m,
    In m (current_messages
            (fst (iteration py_json greedy_hosts "sys" []
                    (initial_state (question "q"))))) ->
    forall ps, msg_body m = Parts ps ->
               ~ In (ToolUsePart "b" "glue_list_tables" (JObj [])) ps.
Proof.
  split; [simpl; auto|].
  intros m Hm ps Hps Hin. vm_compute in Hm.
  destruct Hm as [<- | [<- | [<- | []]]]; vm_compute in Hps;
    try discriminate; injection Hps as <-;
    repeat (destruct Hin as [Hin | Hin]; [discriminate|]); exact Hin.
Qed.

Lemma salvage_texts_parts (msgs : list message) :
  assistant_bodies_are_parts msgs ->
  salvage_texts msgs = Ok (assistant_texts msgs).
Proof.
  induction msgs as [|m ms IH]; intros Hp; [reflexivity|].
  assert (Hms : assistant_bodies_are_parts ms)
    by (intros x Hx; apply Hp; right; exact Hx).
  specialize (IH Hms). unfold assistant_texts in *. simpl.
  destruct (msg_role m) eqn:Er.
  - destruct (msg_body m); exact IH.
  - destruct (Hp m (or_introl eq_refl) Er) as [ps ->]. rewrite IH. reflexivity.
Qed.

Lemma loop_return (J : json_module) (H : hosts) (system : string)
    (tools : list tool_definition) (n : nat) (st st' : run_state) (r : result string) :
  iteration J H system tools st = (st', Return r) ->
  loop J H system tools (S n) st = (st', Some r).
Proof. intros E. simpl. rewrite E. reflexivity. Qed.


Lemma iteration_keeps_parts (J : json_module) (H : hosts) (system : string)
    (tools : list tool_definition) (st st' : run_state) (re : round_end) :
  assistant_bodies_are_parts (current_messages st) ->
  iteration J H system tools st = (st', re) ->
  assistant_bodies_are_parts (current_messages st').
Proof.
  intros Hp. unfold iteration.
  destruct (create H (length (model_calls st)) _) as [blocks|e].
  - destruct (scan_response blocks) as [ps [[id tc]|]];
      intros E; injection E as <- <-; simpl; [|exact Hp].
    intros m Hm Hr. apply in_app_or in Hm as [Hm | [<- | [<- | []]]].
    + exact (Hp m Hm Hr).
    + eexists. reflexivity.
    + eexists. reflexivity.
  - destruct (is_rate_limit e); intros E; injection E as <- <-; exact Hp.
Qed.

Lemma question_bodies_are_parts (q : string) :
  assistant_bodies_are_parts (question q).
Proof. intros m [<- | []] Hr. discriminate. Qed.

Lemma join_nl_one_per_line (ts : list string) : join_nl ts = one_per_line ts.
Proof.
  unfold join_nl. induction ts as [|t rest IH]; [reflexivity|].
  destruct rest as [|u rest]; [reflexivity|].
  change (String.concat nl (t :: u :: rest))
    with (t ++ nl ++ String.concat nl (u :: rest)).
  rewrite IH. reflexivity.
Qed.

(** C5 (amended): when the model call of a round fails and the failure is
    classed as rate limiting, the run returns the texts of the text parts
    of the assistant messages of the conversation, in order, one per line,
    or the fixed apology when there is none; a failure of such a call that
    is not classed so is raised to the caller. A failure of the summary
    call made once the rounds are used up, rate limiting or not, is neither
    salvaged nor raised: the run returns the fallback sentence. *)
Theorem rate_limit_salvage
    (J : json_module) (H : hosts) (system : string)
    (tools : list tool_definition) :
  (forall (n : nat) (st : run_state) (e : exn),
      create H (length (model_calls st))
             {| call_system := system; call_messages := current_messages st;
                call_tools := Some tools |} = Raise e ->
      (is_rate_limit e = true ->
       assistant_bodies_are_parts (current_messages st) ->
       snd (loop J H system tools (S n) st)
       = Some (Ok (match assistant_texts (current_messages st) with
                   | [] => rate_limit_apology
                   | t :: ts => one_per_line (t :: ts)
                   end))) /\
      (is_rate_limit e = false ->
       snd (loop J H system tools (S n) st) = Some (Raise e))) /\
  (forall (st : run_state) (e : exn),
      user_parts_exist is_tool_result (current_messages st) = true ->
      create H (length (model_calls st)) (summary_call system st) = Raise e ->
      snd (exhausted J H system st) = Ok fallback_sentence).
Proof.
  split.
  - intros n st e Hc. split; intros Hr.
    + intros Hp. simpl. unfold iteration. rewrite Hc, Hr. simpl.
      unfold salvage. rewrite (salvage_texts_parts _ Hp).
      destruct (assistant_texts (current_messages st)) as [|t ts]; [reflexivity|].
      rewrite join_nl_one_per_line. reflexivity.
    + simpl. unfold iteration. rewrite Hc, Hr. reflexivity.
  - intros st e Hd Hc. unfold exhausted.
    assert (Hdata : has_data J (current_messages st) = true).
    { unfold has_data. rewrite Hd.
      destruct (user_parts_exist (is_data_result J) (current_messages st)); reflexivity. }
    rewrite Hdata. fold summary_message. fold (summary_call system st).
    rewrite Hc. reflexivity.
Qed.

Lemma rate_limit_salvage_witness :
  snd (loop py_json throttled_hosts "sys" [] 3
         {| current_messages :=
              [{| msg_role := user; msg_body := Plain "q" |};
               {| msg_role := assistant; msg_body := Parts [TextPart "one"] |};
               {| msg_role := assistant;
                  msg_body := Parts [TextPart "two"; ToolUsePart "a" "t" JNull] |}];
            model_calls := []; tool_calls := [] |})
  = Some (Ok ("one" ++ String (ascii_of_nat 10) "two")).
Proof.
  refine (proj1 (proj1 (rate_limit_salvage py_json throttled_hosts "sys" []) 2%nat _
                   (OtherError "Error code: 429") eq_refl) eq_refl _).
  intros m [<- | [<- | [<- | []]]] Hr; simpl in *;
    [discriminate | eexists; reflexivity | eexists; reflexivity].
Defined.

(** C5, as stated, fails for the summary call: a rate-limit failure of it
    is not salvaged, the texts gathered being there, and a failure that is
    no rate limit is not raised; both give the fallback sentence. *)
Lemma summary_failure_not_salvaged :
  let out := call_llm_with_tools py_json summary_throttled_hosts []
               (question "q") "sys" 1 in
  (exists c, nth_error (model_calls (final_state out)) 1 = Some c /\
             create summary_throttled_hosts 1 c
             = Raise (OtherError "Error code: 429 - rate limit")) /\
  is_rate_limit (OtherError "Error code: 429 - rate limit") = true /\
  assistant_texts (current_messages (final_state out)) = ["checking"] /\
  answer out = Ok fallback_sentence /\
  answer out <> Ok "checking" /\
  is_rate_limit (OtherError "overloaded") = false /\
  answer (call_llm_with_tools py_json summary_fails_hosts [] (question "q") "sys" 1)
  <> Raise (OtherError "overloaded").
Proof.
  vm_compute. repeat split; try discriminate. eexists. split; reflexivity.
Qed.

(** ** Tool failures *)

Lemma exhausted_answers (J : json_module) (H : hosts) (system : string)
    (st : run_state) :
  exists s, snd (exhausted J H system st) = Ok s.
Proof.
  unfold exhausted. destruct (has_data J (current_messages st)); [|eexists; reflexivity].
  destruct (create H _ _) as [blocks|e]; [|eexists; reflexivity].
  destruct (block_texts blocks); eexists; reflexivity.
Qed.




(** ** The end of a run *)

Lemma user_parts_exist_weaken (P Q : part -> bool) (msgs : list message) :
  (forall p, P p = true -> Q p = true) ->
  user_parts_exist P msgs = true -> user_parts_exist Q msgs = true.
Proof.
  intros HPQ. unfold user_parts_exist. rewrite !existsb_exists.
  intros (m & Hm & Hb). exists m. split; [exact Hm|].
  apply andb_true_iff in Hb as [Hr Hb]. rewrite Hr. simpl.
  destruct (msg_body m); [discriminate|].
  rewrite existsb_exists in *. destruct Hb as (p & Hp & HP). eauto.
Qed.

Lemma has_data_tool_result (J : json_module) (msgs : list message) :
  has_data J msgs = user_parts_exist is_tool_result msgs.
Proof.
  unfold has_data.
  destruct (user_parts_exist (is_data_result J) msgs) eqn:E; [|reflexivity].
  symmetry. apply (user_parts_exist_weaken (is_data_result J)); [|exact E].
  intros [| |id payload]; simpl; auto.
Qed.

(** C4 (amended): when the rounds are used up, and a user message of the
    conversation holds a tool-result part, the run appends one user message
    with the plain summary request, makes one more model call, without
    tools, on the conversation so extended, and returns the non-empty texts
    of its response joined by line breaks, or the fallback sentence when the
    call fails or its response has no such text; when no user message holds
    a tool-result part it makes no further call and returns the fallback
    sentence. *)
Theorem exhaustion_summary
    (J : json_module) (H : hosts) (tools : list tool_definition)
    (messages : list message) (system : string) (max_iterations : Z)
    (st : run_state) :
  loop J H system tools (Z.to_nat max_iterations) (initial_state messages)
  = (st, None) ->
  let out := call_llm_with_tools J H tools messages system max_iterations in
  let call := {| call_system := system;
                 call_messages := (current_messages st ++ [summary_message])%list;
                 call_tools := None |} in
  (user_parts_exist is_tool_result (current_messages st) = true ->
   current_messages (final_state out)
   = (current_messages st ++ [summary_message])%list /\
   model_calls (final_state out) = (model_calls st ++ [call])%list /\
   tool_calls (final_state out) = tool_calls st /\
   answer out
   = Ok (match create H (length (model_calls st)) call with
         | Ok blocks => match block_texts blocks with
                        | [] => fallback_sentence
                        | t :: ts => join_nl (t :: ts)
                        end
         | Raise _ => fallback_sentence
         end)) /\
  (user_parts_exist is_tool_result (current_messages st) = false ->
   final_state out = st /\ answer out = Ok fallback_sentence).
Proof.
  intros Hl out call. unfold out, call_llm_with_tools.
  fold (initial_state messages). rewrite Hl. unfold exhausted.
  rewrite has_data_tool_result. split; intros ->.
  - fold summary_message. fold call.
    destruct (create H (length (model_calls st)) call) as [blocks|e];
      [destruct (block_texts blocks)|]; simpl; auto.
  - simpl. auto.
Qed.

Lemma exhaustion_summary_witness :
  answer (call_llm_with_tools py_json summary_fails_hosts [] (question "q") "sys" 1)
  = Ok fallback_sentence.
Proof.
  pose (st := fst (loop py_json summary_fails_hosts "sys" [] (Z.to_nat 1)
                     (initial_state (question "q")))).
  destruct (exhaustion_summary py_json summary_fails_hosts [] (question "q")
              "sys" 1 st eq_refl) as [Hyes _].
  destruct (Hyes eq_refl) as (_ & _ & _ & Ha).
  exact Ha.
Defined.

(** C4, as stated, fails: with a tool result in the conversation and the
    extra call made without tools, the run returns the fallback sentence,
    not a text of that call, when the call fails. *)
Lemma summary_call_failure_counterexample :
  let out := call_llm_with_tools py_json summary_fails_hosts []
               (question "q") "sys" 1 in
  user_parts_exist is_tool_result (current_messages (final_state out)) = true /\
  length (model_calls (final_state out)) = 2%nat /\
  (exists c, nth_error (model_calls (final_state out)) 1 = Some c /\
             call_tools c = None /\
             create summary_fails_hosts 1 c = Raise (OtherError "overloaded")) /\
  answer out = Ok fallback_sentence.
Proof.
  vm_compute. repeat split. eexists. repeat split.
Qed.

(** ** The pairing invariant *)

Lemma paired_app (l1 l2 : list message) :
  paired l1 -> paired l2 -> paired (l1 ++ l2).
Proof.
  induction 1 as [|texts id name input payload rest _ IH]; intros H2; simpl;
    [exact H2 | constructor; auto].
Qed.

Lemma scan_response_shape (blocks : list block) :
  forall ps id tc,
    scan_response blocks = (ps, Some (id, tc)) ->
    exists texts,
      ps = (map TextPart texts
            ++ [ToolUsePart id (called_name tc) (called_input tc)])%list.
Proof.
  induction blocks as [|b bs IH]; simpl; intros ps id tc; [discriminate|].
  destruct b as [[|c t]|id' name input|].
  - apply IH.
  - destruct (scan_response bs) as [ps' tu] eqn:E. intros Hs.
    injection Hs as <- ->. destruct (IH _ _ _ eq_refl) as [texts ->].
    exists (String c t :: texts). reflexivity.
  - intros Hs. injection Hs as <- <- <-. exists []. reflexivity.
  - apply IH.
Qed.

Lemma count_parts_app (P : part -> bool) (l1 l2 : list message) :
  count_parts P (l1 ++ l2) = (count_parts P l1 + count_parts P l2)%nat.
Proof.
  unfold count_parts. rewrite flat_map_app, filter_app, length_app. reflexivity.
Qed.

Lemma filter_texts_none (P : part -> bool) (texts : list string) :
  (forall t, P (TextPart t) = false) ->
  filter P (map TextPart texts) = [].
Proof.
  intros HP. induction texts as [|t ts IH]; simpl; [reflexivity|].
  rewrite HP. exact IH.
Qed.

Lemma count_round (texts : list string) (id name : string) (input : json)
    (payload : string) :
  let round := [{| msg_role := assistant;
                   msg_body := Parts (map TextPart texts ++ [ToolUsePart id name input]) |};
                {| msg_role := user; msg_body := Parts [ToolResultPart id payload] |}] in
  count_parts is_tool_result round = 1%nat /\ count_parts is_tool_use round = 1%nat.
Proof.
  unfold count_parts. cbn [flat_map parts_of msg_body app].
  rewrite !filter_app.
  rewrite !filter_texts_none by reflexivity. simpl. auto.
Qed.

Lemma iteration_invariant (J : json_module) (H : hosts) (system : string)
    (tools : list tool_definition) (messages : list message)
    (st st' : run_state) (re : round_end) :
  loop_invariant messages st ->
  iteration J H system tools st = (st', re) ->
  loop_invariant messages st'.
Proof.
  intros (appended & Hm & Hp & Hr & Hu & Hc) E.
  assert (Hcall : Forall (well_paired_call messages)
            (model_calls st
             ++ [{| call_system := system; call_messages := current_messages st;
                    call_tools := Some tools |}])).
  { apply Forall_app. split; [exact Hc|]. constructor; [|constructor].
    exists appended. split; [exact Hp|]. left. exact Hm. }
  unfold iteration in E.
  destruct (create H (length (model_calls st)) _) as [blocks|e].
  - destruct (scan_response blocks) as [ps [[id tc]|]] eqn:Es.
    + injection E as <- <-.
      destruct (scan_response_shape _ _ _ _ Es) as [texts ->].
      set (payload := match call_tool H (length (tool_calls st)) tc with
                      | Ok r => dumps J (extract_tool_result J r)
                      | Raise e => dumps J (error_value (exn_str e))
                      end).
      destruct (count_round texts id (called_name tc) (called_input tc) payload)
        as [Cr Cu].
      exists (appended
              ++ [{| msg_role := assistant;
                     msg_body := Parts (map TextPart texts
                                        ++ [ToolUsePart id (called_name tc) (called_input tc)]) |};
                  tool_result_message id payload])%list.
      simpl. rewrite Hm in Hcall |- *. rewrite <- app_assoc. split; [reflexivity|].
      split; [apply paired_app; [exact Hp | repeat constructor]|].
      rewrite !count_parts_app, !length_app. simpl.
      unfold tool_result_message. rewrite Cr, Cu, Hr, Hu.
      repeat split; auto.
    + injection E as <- <-. exists appended. simpl. auto.
  - destruct (is_rate_limit e); injection E as <- <-;
      exists appended; simpl; auto.
Qed.

Lemma loop_invariant_kept (J : json_module) (H : hosts) (system : string)
    (tools : list tool_definition) (messages : list message) (n : nat) :
  forall st st' r,
    loop_invariant messages st ->
    loop J H system tools n st = (st', r) ->
    loop_invariant messages st'.
Proof.
  induction n as [|n IH]; simpl; intros st st' r Hi E.
  - injection E as <- <-. exact Hi.
  - destruct (iteration J H system tools st) as [st1 [|r1]] eqn:Ei.
    + apply (IH st1 st' r); [|exact E].
      exact (iteration_invariant J H system tools messages st st1 _ Hi Ei).
    + injection E as <- <-.
      exact (iteration_invariant J H system tools messages st st1 _ Hi Ei).
Qed.

Lemma initial_invariant (messages : list message) :
  loop_invariant messages (initial_state messages).
Proof.
  exists []. simpl. rewrite app_nil_r. repeat split; constructor.
Qed.

Lemma count_parts_summary (P : part -> bool) (l : list message) :
  count_parts P (l ++ [summary_message]) = count_parts P l.
Proof. rewrite count_parts_app. unfold count_parts at 2. simpl. lia. Qed.

(** C9: in a run started on [messages], the conversation passed to every
    model call is [messages] followed by whole rounds, each an assistant
    message ending in its one tool use and then a user message with the one
    tool result of the same id (and, for the call made after the loop, the
    summary request); the conversation the run leaves has the same form, and
    the tool-result parts and the tool-use parts the run added to it are
    each as many as the tool calls dispatched. *)
Theorem tool_uses_are_paired
    (J : json_module) (H : hosts) (tools : list tool_definition)
    (messages : list message) (system : string) (max_iterations : Z) :
  let out := call_llm_with_tools J H tools messages system max_iterations in
  Forall (well_paired_call messages) (model_calls (final_state out)) /\
  (exists appended,
      paired appended /\
      (current_messages (final_state out) = (messages ++ appended)%list \/
       current_messages (final_state out)
       = (messages ++ appended ++ [summary_message])%list) /\
      count_parts is_tool_result appended = length (tool_calls (final_state out)) /\
      count_parts is_tool_use appended = length (tool_calls (final_state out))) /\
  count_parts is_tool_result (current_messages (final_state out))
  = (count_parts is_tool_result messages + length (tool_calls (final_state out)))%nat /\
  count_parts is_tool_use (current_messages (final_state out))
  = (count_parts is_tool_use messages + length (tool_calls (final_state out)))%nat.
Proof.
  intros out. unfold out, call_llm_with_tools. fold (initial_state messages).
  destruct (loop J H system tools (Z.to_nat max_iterations) (initial_state messages))
    as [st r] eqn:El.
  destruct (loop_invariant_kept J H system tools messages _ _ _ _
              (initial_invariant messages) El)
    as (appended & Hm & Hp & Hr & Hu & Hc).
  destruct r as [r|].
  - simpl. split; [exact Hc|]. split.
    + exists appended. auto.
    + rewrite Hm, !count_parts_app, Hr, Hu. auto.
  - unfold exhausted. destruct (has_data J (current_messages st)).
    + fold summary_message.
      assert (Hfin : forall stf : run_state,
        current_messages stf = (current_messages st ++ [summary_message])%list ->
        model_calls stf
        = (model_calls st
           ++ [{| call_system := system;
                  call_messages := (current_messages st ++ [summary_message])%list;
                  call_tools := None |}])%list ->
        tool_calls stf = tool_calls st ->
        Forall (well_paired_call messages) (model_calls stf) /\
        (exists appended0,
            paired appended0 /\
            (current_messages stf = (messages ++ appended0)%list \/
             current_messages stf = (messages ++ appended0 ++ [summary_message])%list) /\
            count_parts is_tool_result appended0 = length (tool_calls stf) /\
            count_parts is_tool_use appended0 = length (tool_calls stf)) /\
        count_parts is_tool_result (current_messages stf)
        = (count_parts is_tool_result messages + length (tool_calls stf))%nat /\
        count_parts is_tool_use (current_messages stf)
        = (count_parts is_tool_use messages + length (tool_calls stf))%nat).
      { intros stf -> -> ->. rewrite Hm, <- app_assoc. split; [|split].
        - apply Forall_app. split; [exact Hc|]. constructor; [|constructor].
          exists appended. split; [exact Hp|]. right. reflexivity.
        - exists appended. auto.
        - rewrite app_assoc, !count_parts_summary, !count_parts_app, Hr, Hu. auto. }
      destruct (create H (length (model_calls st)) _) as [blocks|e];
        [destruct (block_texts blocks)|]; apply Hfin; reflexivity.
    + simpl. split; [exact Hc|]. split.
      * exists appended. auto.
      * rewrite Hm, !count_parts_app, Hr, Hu. auto.
Qed.

(** ** The bound on model calls *)

Lemma iteration_one_call (J : json_module) (H : hosts) (system : string)
    (tools : list tool_definition) (st st' : run_state) (re : round_end) :
  iteration J H system tools st = (st', re) ->
  length (model_calls st') = S (length (model_calls st)).
Proof.
  unfold iteration.
  destruct (create H (length (model_calls st)) _) as [blocks|e].
  - destruct (scan_response blocks) as [ps [[id tc]|]];
      intros E; injection E as <- <-; simpl; rewrite length_app; simpl; lia.
  - destruct (is_rate_limit e);
      intros E; injection E as <- <-; simpl; rewrite length_app; simpl; lia.
Qed.

Lemma loop_calls_bound (J : json_module) (H : hosts) (system : string)
    (tools : list tool_definition) (n : nat) :
  forall st st' r,
    loop J H system tools n st = (st', r) ->
    (length (model_calls st') <= length (model_calls st) + n)%nat /\
    (r = None -> length (model_calls st') = (length (model_calls st) + n)%nat).
Proof.
  induction n as [|n IH]; simpl; intros st st' r E.
  - injection E as <- <-. lia.
  - destruct (iteration J H system tools st) as [st1 [|r1]] eqn:Ei;
      pose proof (iteration_one_call _ _ _ _ _ _ _ Ei) as H1.
    + destruct (IH _ _ _ E) as [Hle Heq]. split; [lia|].
      intros Hr. specialize (Heq Hr). lia.
    + injection E as <- <-. split; [lia | discriminate].
Qed.

Lemma block_texts_head (blocks : list block) (t : string) (ts : list string) :
  block_texts blocks = t :: ts -> t <> EmptyString.
Proof.
  induction blocks as [|b bs IH]; simpl; [discriminate|].
  destruct b as [[|c s]| |]; simpl; auto.
  intros E. injection E as <- _. discriminate.
Qed.

Lemma join_nl_nonempty (t : string) (ts : list string) :
  t <> EmptyString -> join_nl (t :: ts) <> EmptyString.
Proof.
  unfold join_nl. destruct t as [|c t]; [congruence|]. intros _.
  destruct ts; simpl; discriminate.
Qed.

Lemma exhausted_nonempty (J : json_module) (H : hosts) (system : string)
    (st : run_state) :
  exists s, snd (exhausted J H system st) = Ok s /\ s <> EmptyString /\
            (length (model_calls (fst (exhausted J H system st)))
             <= S (length (model_calls st)))%nat.
Proof.
  unfold exhausted. destruct (has_data J (current_messages st)).
  - destruct (create H (length (model_calls st)) _) as [blocks|e].
    + destruct (block_texts blocks) as [|t ts] eqn:Eb; simpl.
      * exists fallback_sentence. rewrite length_app. simpl.
        repeat split; [discriminate | lia].
      * exists (join_nl (t :: ts)). rewrite length_app. simpl.
        repeat split; [|lia].
        apply join_nl_nonempty. exact (block_texts_head blocks t ts Eb).
    + exists fallback_sentence. simpl. rewrite length_app. simpl.
      repeat split; [discriminate | lia].
  - exists fallback_sentence. simpl. repeat split; [discriminate | lia].
Qed.

(** C2 (amended): for every conversation, system prompt and
    [max_iterations], the run, a total function, makes at most
    [max_iterations + 1] model calls (none of the rounds for a negative
    [max_iterations]), and gives a string or an exception; when the rounds
    are used up, it gives a string, and a non-empty one. *)
Theorem model_calls_bounded
    (J : json_module) (H : hosts) (tools : list tool_definition)
    (messages : list message) (system : string) (max_iterations : Z) :
  let out := call_llm_with_tools J H tools messages system max_iterations in
  (Z.of_nat (length (model_calls (final_state out)))
   <= Z.max 0 max_iterations + 1)%Z /\
  (snd (loop J H system tools (Z.to_nat max_iterations) (initial_state messages))
   = None ->
   exists s, answer out = Ok s /\ s <> EmptyString).
Proof.
  intros out. unfold out, call_llm_with_tools. fold (initial_state messages).
  destruct (loop J H system tools (Z.to_nat max_iterations) (initial_state messages))
    as [st r] eqn:El.
  destruct (loop_calls_bound J H system tools _ _ _ _ El) as [Hle _].
  simpl in Hle.
  destruct r as [r|].
  - simpl. split; [lia | discriminate].
  - destruct (exhausted_nonempty J H system st) as (s & Hs & Hne & Hn).
    destruct (exhausted J H system st) as [st' r]. simpl in *.
    split; [lia|]. intros _. exists s. auto.
Qed.

Lemma model_calls_bounded_witness :
  exists s,
    answer (call_llm_with_tools py_json greedy_hosts [] (question "q") "sys" 2)
    = Ok s /\ s <> EmptyString.
Proof.
  exact (proj2 (model_calls_bounded py_json greedy_hosts [] (question "q") "sys" 2)
           eq_refl).
Defined.

(** C2, as stated, fails: a model failure that is not a rate limit leaves
    the run as an exception, and a response with no tool use and no text
    makes the run return the empty string. *)
Lemma no_string_counterexample :
  answer (call_llm_with_tools py_json down_hosts [] (question "q") "sys" 10)
  = Raise (OtherError "connection refused") /\
  answer (call_llm_with_tools py_json mute_hosts [] (question "q") "sys" 10)
  = Ok EmptyString.
Proof. split; vm_compute; reflexivity. Qed.

(** * Further properties *)

(** ** The SQL guard: embedding *)

Lemma str_app_assoc (a b c : string) : (a ++ b) ++ c = a ++ b ++ c.
Proof. induction a as [|x a IH]; simpl; [reflexivity | rewrite IH; reflexivity]. Qed.

Lemma str_lower_app (a b : string) :
  str_lower (a ++ b) = str_lower a ++ str_lower b.
Proof. induction a as [|x a IH]; simpl; [reflexivity | rewrite IH; reflexivity]. Qed.

Lemma last_char_app (a b : string) :
  last_char (a ++ b) = match last_char b with
                       | Some d => Some d
                       | None => last_char a
                       end.
Proof.
  induction a as [|x a IH]; simpl.
  - destruct (last_char b); reflexivity.
  - rewrite IH. destruct (last_char b); reflexivity.
Qed.

Lemma head_app (a b : string) :
  head (a ++ b) = match head a with
                  | Some c => Some c
                  | None => head b
                  end.
Proof. destruct a; simpl; [destruct (head b)|]; reflexivity. Qed.

Lemma last_char_lower (s : string) :
  last_char (str_lower s) = option_map lower (last_char s).
Proof.
  induction s as [|c s IH]; simpl; [reflexivity|].
  rewrite IH. destruct (last_char s); reflexivity.
Qed.

Lemma head_lower (s : string) : head (str_lower s) = option_map lower (head s).
Proof. destruct s; reflexivity. Qed.

(** X2: a rejected statement stays rejected inside a longer text, when the
    character before it and the character after it are no word characters
    (a semicolon, a space, a line break, or nothing): a blocked statement
    cannot be passed by putting other statements around it. *)
Theorem SQL_BLOCK_embedded (pre sql post : string) :
  SQL_BLOCK sql = true ->
  is_word_opt (last_char pre) = false ->
  is_word_opt (head post) = false ->
  SQL_BLOCK (pre ++ sql ++ post) = true.
Proof.
  intros Hs Hpre Hpost. apply SQL_BLOCK_iff in Hs.
  destruct Hs as (pre0 & mid & post0 & w & -> & Hw & Hm & Hp & Hq).
  apply SQL_BLOCK_iff.
  exists (pre ++ pre0), mid, (post0 ++ post), w.
  rewrite !str_app_assoc, last_char_app, head_app.
  repeat split; auto.
  - destruct (last_char pre0); [exact Hp | exact Hpre].
  - destruct (head post0); [exact Hq | exact Hpost].
Qed.

Lemma SQL_BLOCK_embedded_witness :
  SQL_BLOCK ("select 1; " ++ "drop table t" ++ "; select 2") = true.
Proof.
  exact (SQL_BLOCK_embedded "select 1; " "drop table t" "; select 2"
           eq_refl eq_refl eq_refl).
Defined.

(** ** The poller: success, failures of the service, termination *)

Lemma athena_results_unfold (env : athena_env) (fuel : nat)
    (id1 id2 : option string) (qid : string) (max_rows wait_ms max_wait_s : Z) :
  or_id id1 id2 = Some qid -> qid <> EmptyString ->
  athena_results env fuel id1 id2 max_rows wait_ms max_wait_s
  = match poll_loop fuel env qid wait_ms max_wait_s (time_reading env 0) 0 with
    | None => None
    | Some (Raise e) => Some (Raise e)
    | Some (Ok _) =>
        match query_results env qid max_rows with
        | Raise e => Some (Raise e)
        | Ok fetched => Some (Ok (shape_results fetched))
        end
    end.
Proof.
  intros Hid Hne. unfold athena_results. rewrite Hid.
  destruct qid; [congruence | reflexivity].
Qed.



Lemma poll_loop_unfold (env : athena_env) (qid : string)
    (wait_ms max_wait_s : Z) (start : float) (fuel i : nat) :
  poll_loop (S fuel) env qid wait_ms max_wait_s start i
  = match query_execution env qid i with
    | Raise e => Some (Raise e)
    | Ok q =>
        match State q with
        | SUCCEEDED => Some (Ok tt)
        | FAILED | CANCELLED =>
            Some (Raise (RuntimeError
              ("Athena " ++ state_name (State q) ++ ": " ++ reason_or_empty q)))
        | QUEUED | RUNNING =>
            if timed_out (time_reading env (S i)) start max_wait_s
            then Some (Raise (TimeoutError "Athena query timed out"))
            else match sleep env wait_ms with
                 | Some e => Some (Raise e)
                 | None => poll_loop fuel env qid wait_ms max_wait_s start (S i)
                 end
        end
    end.
Proof. reflexivity. Qed.

Lemma poll_loop_more_fuel (env : athena_env) (qid : string)
    (wait_ms max_wait_s : Z) (start : float) (fuel : nat) :
  forall i r,
    poll_loop fuel env qid wait_ms max_wait_s start i = Some r ->
    poll_loop (S fuel) env qid wait_ms max_wait_s start i = Some r.
Proof.
  induction fuel as [|fuel IH]; intros i r; [discriminate|].
  rewrite (poll_loop_unfold env qid wait_ms max_wait_s start (S fuel)).
  rewrite (poll_loop_unfold env qid wait_ms max_wait_s start fuel).
  destruct (query_execution env qid i) as [q|e]; [|auto].
  destruct (State q); auto;
    destruct (timed_out _ _ _); auto;
    destruct (sleep env wait_ms); auto.
Qed.

Lemma poll_loop_fuel_le (env : athena_env) (qid : string)
    (wait_ms max_wait_s : Z) (start : float) (fuel fuel' : nat) (i : nat)
    (r : result unit) :
  (fuel <= fuel')%nat ->
  poll_loop fuel env qid wait_ms max_wait_s start i = Some r ->
  poll_loop fuel' env qid wait_ms max_wait_s start i = Some r.
Proof.
  induction 1 as [|fuel' _ IH]; intros Hr; [exact Hr|].
  apply poll_loop_more_fuel, IH, Hr.
Qed.

Lemma poll_loop_deadline (env : athena_env) (qid : string)
    (wait_ms max_wait_s : Z) (n : nat) :
  ~ within_budget env max_wait_s n ->
  forall d i, (i + d = n)%nat ->
    exists r, poll_loop (S d) env qid wait_ms max_wait_s (time_reading env 0) i
              = Some r.
Proof.
  intros Hlate.
  induction d as [|d IH]; intros i Hi; rewrite poll_loop_unfold.
  - assert (i = n) by lia. subst i. unfold within_budget in Hlate.
    destruct (query_execution env qid n) as [q|e]; [|eauto].
    destruct (timed_out (time_reading env (S n)) (time_reading env 0) max_wait_s);
      [|congruence].
    destruct (State q); eauto.
  - destruct (query_execution env qid i) as [q|e]; [|eauto].
    destruct (timed_out (time_reading env (S i)) (time_reading env 0) max_wait_s);
      [destruct (State q); eauto|].
    destruct (sleep env wait_ms) as [e|]; [destruct (State q); eauto|].
    destruct (State q); eauto; apply IH; lia.
Qed.

(** X5: [athena_results] ends whatever the service answers and whatever
    the pause does, once the elapsed time passes the wait budget: if in
    round [n] the float difference of the clock readings is above
    [max_wait_s], no more than [n + 1] polls are made, and the call returns
    rows or raises. *)
Theorem athena_results_terminates
    (env : athena_env) (id1 id2 : option string)
    (max_rows wait_ms max_wait_s : Z) (n : nat) :
  ~ within_budget env max_wait_s n ->
  forall fuel, (n < fuel)%nat ->
    exists r, athena_results env fuel id1 id2 max_rows wait_ms max_wait_s = Some r.
Proof.
  intros Hlate fuel Hn. unfold athena_results.
  destruct (or_id id1 id2) as [[|c s]|]; eauto.
  destruct (poll_loop_deadline env (String c s) wait_ms max_wait_s n Hlate n 0%nat
              eq_refl) as [r Hr].
  rewrite (poll_loop_fuel_le _ _ _ _ _ (S n) fuel 0%nat r ltac:(lia) Hr).
  destruct r as [[]|e]; eauto.
  destruct (query_results env (String c s) max_rows); eauto.
Qed.



Lemma athena_results_terminates_witness :
  exists r, athena_results slow_job 11 (Some "q1") None 1000 400 0 = Some r.
Proof.
  refine (athena_results_terminates slow_job (Some "q1") None 1000 400 0
            0%nat _ 11%nat _).
  - unfold within_budget. vm_compute. discriminate.
  - lia.
Defined.

(** X6: an id that is missing or empty does not count: with neither id
    usable, [athena_results] and [athena_status] raise the validation error
    whatever the service would answer, and no poll is made; an empty
    [query_execution_id] gives way to [queryExecutionId], and a usable one
    makes the other ignored. *)
Theorem missing_id_is_rejected
    (env : athena_env) (get : string -> result execution) (fuel : nat)
    (id1 id2 : option string) (max_rows wait_ms max_wait_s : Z) :
  (truthy_id id1 = false -> truthy_id id2 = false ->
   athena_results env fuel id1 id2 max_rows wait_ms max_wait_s
   = Some (Raise (ValueError "Provide query_execution_id (or queryExecutionId).")) /\
   athena_status get id1 id2
   = Raise (ValueError "Provide query_execution_id (or queryExecutionId).")) /\
  (truthy_id id1 = false ->
   athena_results env fuel id1 id2 max_rows wait_ms max_wait_s
   = athena_results env fuel None id2 max_rows wait_ms max_wait_s /\
   athena_status get id1 id2 = athena_status get None id2) /\
  (truthy_id id1 = true ->
   athena_results env fuel id1 id2 max_rows wait_ms max_wait_s
   = athena_results env fuel id1 None max_rows wait_ms max_wait_s /\
   athena_status get id1 id2 = athena_status get id1 None).
Proof.
  unfold athena_results, athena_status.
  destruct id1 as [[|c1 s1]|]; simpl; (split; [|split]); try discriminate;
    intros _; try (destruct id2 as [[|c2 s2]|]; simpl; try discriminate; auto).
Qed.

Lemma missing_id_is_rejected_witness :
  athena_results finished_job 0 (Some EmptyString) None 1000 400 60
  = Some (Raise (ValueError "Provide query_execution_id (or queryExecutionId).")) /\
  athena_status (fun _ => Raise (OtherError "unreachable")) (Some EmptyString) None
  = Raise (ValueError "Provide query_execution_id (or queryExecutionId).").
Proof.
  exact (proj1 (missing_id_is_rejected finished_job
                  (fun _ => Raise (OtherError "unreachable")) 0
                  (Some EmptyString) None 1000 400 60) eq_refl eq_refl).
Defined.

(** X7: an exception of [time.sleep], which it raises for a pause that
    is negative or too long for the clock, is not caught: when the first
    poll finds the job pending with the elapsed time not above
    [max_wait_s], [athena_results] raises it, after that single poll. *)
Theorem sleep_error_is_raised
    (env : athena_env) (id1 id2 : option string) (qid : string)
    (max_rows wait_ms max_wait_s : Z) (e : exn)
    (Hid : or_id id1 id2 = Some qid) (Hne : qid <> EmptyString)
    (Hsleep : sleep env wait_ms = Some e)
    (Hpending : pending env qid 0) (Hbudget : within_budget env max_wait_s 0) :
  forall fuel, (0 < fuel)%nat ->
    athena_results env fuel id1 id2 max_rows wait_ms max_wait_s = Some (Raise e).
Proof.
  intros fuel Hf. rewrite (athena_results_unfold env fuel id1 id2 qid) by assumption.
  destruct fuel as [|fuel]; [lia|]. rewrite poll_loop_unfold.
  destruct Hpending as (q & -> & Hst).
  unfold within_budget in Hbudget. rewrite Hbudget, Hsleep.
  destruct Hst as [-> | ->]; reflexivity.
Qed.

Lemma sleep_error_is_raised_witness :
  athena_results hasty_job 5 (Some "q1") None 1000 (-400) 60
  = Some (Raise (ValueError "sleep length must be non-negative")).
Proof.
  refine (sleep_error_is_raised hasty_job (Some "q1") None "q1" 1000 (-400) 60 _
            eq_refl _ eq_refl _ _ 5%nat _).
  - discriminate.
  - exists {| State := RUNNING; StateChangeReason := None |}. split; auto.
  - vm_compute. reflexivity.
  - lia.
Defined.

(** ** The Glue listings *)

Lemma cap_reached (max : Z) (n : nat) :
  (max <=? Z.of_nat (S n))%Z = (cap max <=? S n)%nat.
Proof.
  unfold cap. destruct (Z.leb_spec max (Z.of_nat (S n)));
    symmetry; [apply Nat.leb_le | apply Nat.leb_gt]; lia.
Qed.

Lemma firstn_exact {A : Type} (l1 l2 : list A) :
  firstn (length l1) (l1 ++ l2) = l1.
Proof. rewrite firstn_app, Nat.sub_diag, firstn_all. simpl. apply app_nil_r. Qed.

Lemma scan_database_list_spec (max : Z) (dbs : list string) :
  forall names,
    (length names < cap max)%nat ->
    scan_database_list max names dbs
    = if (cap max <=? length (names ++ dbs))%nat
      then (firstn (cap max) (names ++ dbs), true)
      else ((names ++ dbs)%list, false).
Proof.
  induction dbs as [|db rest IH]; intros names Hlt; simpl.
  - rewrite app_nil_r.
    destruct (Nat.leb_spec (cap max) (length names)); [lia | reflexivity].
  - rewrite length_app. simpl length. rewrite Nat.add_1_r, cap_reached.
    destruct (Nat.leb_spec (cap max) (S (length names))) as [Hle|Hgt].
    + assert (Hc : cap max = length (names ++ [db])%list)
        by (rewrite length_app; simpl; lia).
      replace (names ++ db :: rest)%list with ((names ++ [db]) ++ rest)%list
        by (rewrite <- app_assoc; reflexivity).
      rewrite Hc at 2. rewrite firstn_exact.
      destruct (Nat.leb_spec (cap max) (length ((names ++ [db]) ++ rest)));
        [reflexivity | rewrite !length_app in *; simpl in *; lia].
    + rewrite IH by (rewrite length_app; simpl; lia).
      rewrite <- app_assoc. reflexivity.
Qed.

Lemma scan_database_pages_spec (max : Z) (pages : list (result database_page)) :
  all_pages_ok pages ->
  forall names,
    (length names < cap max)%nat ->
    let all := (names ++ flat_map page_databases (fetched_pages pages))%list in
    scan_database_pages max names pages
    = Ok {| databases := firstn (cap max) all;
            databases_truncated := (cap max <=? length all)%nat |}.
Proof.
  induction 1 as [|p pages [page ->] _ IH]; intros names Hlt all; unfold all; simpl.
  - rewrite (app_nil_r names).
    destruct (Nat.leb_spec (cap max) (length names)); [lia|].
    rewrite firstn_all2 by lia. reflexivity.
  - rewrite scan_database_list_spec by exact Hlt.
    rewrite (app_assoc names).
    destruct (Nat.leb_spec (cap max) (length (names ++ page_databases page)))
      as [Hle|Hgt].
    + rewrite (firstn_app (cap max) (names ++ page_databases page)).
      replace (cap max - length (names ++ page_databases page))%nat with 0%nat by lia.
      simpl firstn at 3. rewrite app_nil_r.
      destruct (Nat.leb_spec (cap max)
                  (length ((names ++ page_databases page)
                           ++ flat_map page_databases (fetched_pages pages))));
        [reflexivity | rewrite !length_app in *; lia].
    + exact (IH _ Hgt).
Qed.

(** X8: when every page is fetched without error, [glue_list_databases]
    returns the first names of the catalog, in the order of the pages, up
    to the cap, which counts as 1 when [max_databases] is below 1; the
    [truncated] flag is set exactly when the catalog has at least as many
    names as the cap, also when it has no more than that. *)
Theorem glue_list_databases_cap
    (pages : list (result database_page)) (max_databases : Z) :
  all_pages_ok pages ->
  let all := flat_map page_databases (fetched_pages pages) in
  glue_list_databases pages max_databases
  = Ok {| databases := firstn (cap max_databases) all;
          databases_truncated := (cap max_databases <=? length all)%nat |}.
Proof.
  intros Hok. unfold glue_list_databases.
  apply (scan_database_pages_spec max_databases pages Hok []).
  unfold cap. simpl. lia.
Qed.

Lemma glue_list_databases_cap_witness :
  glue_list_databases [Ok (Some ["a"; "b"]); Ok None; Ok (Some ["c"])] 0
  = Ok {| databases := ["a"]; databases_truncated := true |}.
Proof.
  refine (glue_list_databases_cap [Ok (Some ["a"; "b"]); Ok None; Ok (Some ["c"])] 0 _).
  repeat constructor; eexists; reflexivity.
Defined.

Lemma cap_reached_count (max : Z) (n : nat) :
  (max <=? Z.of_nat n + 1)%Z = (cap max <=? S n)%nat.
Proof.
  rewrite <- cap_reached. f_equal. lia.
Qed.

Lemma scan_table_list_spec (max : Z) (inc : bool) (ts : list glue_table) :
  forall tables,
    (length tables < cap max)%nat ->
    let l := (tables ++ map (make_item inc) ts)%list in
    scan_table_list max inc tables (Z.of_nat (length tables)) ts
    = if (cap max <=? length l)%nat
      then (firstn (cap max) l, Z.of_nat (cap max), true)
      else (l, Z.of_nat (length l), false).
Proof.
  induction ts as [|t rest IH]; intros tables Hlt l; unfold l; simpl.
  - rewrite app_nil_r.
    destruct (Nat.leb_spec (cap max) (length tables)); [lia | reflexivity].
  - rewrite cap_reached_count.
    destruct (Nat.leb_spec (cap max) (S (length tables))) as [Hle|Hgt].
    + assert (Hc : cap max = length (tables ++ [make_item inc t])%list)
        by (rewrite length_app; simpl; lia).
      replace (tables ++ make_item inc t :: map (make_item inc) rest)%list
        with ((tables ++ [make_item inc t]) ++ map (make_item inc) rest)%list
        by (rewrite <- app_assoc; reflexivity).
      rewrite Hc at 2. rewrite firstn_exact.
      destruct (Nat.leb_spec (cap max)
                  (length ((tables ++ [make_item inc t]) ++ map (make_item inc) rest)));
        [|rewrite !length_app in *; simpl in *; lia].
      do 2 f_equal. rewrite Hc, length_app. simpl. lia.
    + replace (Z.of_nat (length tables) + 1)%Z
        with (Z.of_nat (length (tables ++ [make_item inc t])%list))
        by (rewrite length_app; simpl; lia).
      rewrite IH by (rewrite length_app; simpl; lia).
      rewrite <- app_assoc. reflexivity.
Qed.




Lemma scan_database_pages_stop (max : Z) (pre rest : list (result database_page)) :
  forall names L,
    scan_database_pages max names pre = Ok L ->
    databases_truncated L = true ->
    scan_database_pages max names (pre ++ rest) = Ok L.
Proof.
  induction pre as [|[page|e] pre IH]; intros names L; simpl.
  - intros E. injection E as <-. discriminate.
  - destruct (scan_database_list max names (page_databases page)) as [names' [|]];
      [auto | apply IH].
  - discriminate.
Qed.

Lemma scan_table_pages_stop (database : string) (max : Z) (inc : bool)
    (pre rest : list (result (list glue_table))) :
  forall tables count L,
    scan_table_pages database max inc tables count pre = Ok L ->
    listing_truncated L = true ->
    scan_table_pages database max inc tables count (pre ++ rest) = Ok L.
Proof.
  induction pre as [|[page|e] pre IH]; intros tables count L; simpl.
  - intros E. injection E as <-. discriminate.
  - destruct (scan_table_list max inc tables count page) as [[tables' count'] [|]];
      [auto | apply IH].
  - discriminate.
Qed.

Lemma scan_database_pages_raise (max : Z) (e : exn)
    (pre rest : list (result database_page)) :
  all_pages_ok pre ->
  forall names,
    (length (names ++ flat_map page_databases (fetched_pages pre)) < cap max)%nat ->
    scan_database_pages max names (pre ++ Raise e :: rest) = Raise e.
Proof.
  induction 1 as [|p pre [page ->] _ IH]; intros names Hlt; simpl; [reflexivity|].
  simpl in Hlt. rewrite app_assoc in Hlt.
  rewrite scan_database_list_spec by (rewrite !length_app in *; lia).
  destruct (Nat.leb_spec (cap max) (length (names ++ page_databases page)));
    [rewrite !length_app in *; lia|].
  apply IH. exact Hlt.
Qed.

Lemma scan_table_pages_raise (database : string) (max : Z) (inc : bool) (e : exn)
    (pre rest : list (result (list glue_table))) :
  all_pages_ok pre ->
  forall tables,
    (length tables + length (flat_map (fun p => p) (fetched_pages pre)) < cap max)%nat ->
    scan_table_pages database max inc tables (Z.of_nat (length tables))
                     (pre ++ Raise e :: rest) = Raise e.
Proof.
  induction 1 as [|p pre [page ->] _ IH]; intros tables Hlt; simpl; [reflexivity|].
  simpl in Hlt. rewrite length_app in Hlt.
  rewrite scan_table_list_spec by lia.
  destruct (Nat.leb_spec (cap max) (length (tables ++ map (make_item inc) page)));
    [rewrite length_app, length_map in *; lia|].
  apply IH. rewrite length_app, length_map. lia.
Qed.

(** X10: the listings fetch no page they do not need: once the cap is
    reached the result is the same whatever pages follow, failing ones
    included; and a page that fails before the cap is reached makes the
    listing raise that exception, with nothing returned of what was
    gathered. *)
Theorem listings_stop_at_cap :
  (forall (pre rest : list (result database_page)) (max_databases : Z)
          (L : database_listing),
      glue_list_databases pre max_databases = Ok L ->
      databases_truncated L = true ->
      glue_list_databases (pre ++ rest) max_databases = Ok L) /\
  (forall (pre rest : list (result (list glue_table))) (database : string)
          (max_tables : Z) (include_schema : bool) (L : table_listing),
      glue_list_tables pre database max_tables include_schema = Ok L ->
      listing_truncated L = true ->
      glue_list_tables (pre ++ rest) database max_tables include_schema = Ok L) /\
  (forall (pre rest : list (result database_page)) (max_databases : Z) (e : exn),
      all_pages_ok pre ->
      (length (flat_map page_databases (fetched_pages pre)) < cap max_databases)%nat ->
      glue_list_databases (pre ++ Raise e :: rest) max_databases = Raise e) /\
  (forall (pre rest : list (result (list glue_table))) (database : string)
          (max_tables : Z) (include_schema : bool) (e : exn),
      all_pages_ok pre ->
      (length (flat_map (fun p => p) (fetched_pages pre)) < cap max_tables)%nat ->
      glue_list_tables (pre ++ Raise e :: rest) database max_tables include_schema
      = Raise e).
Proof.
  repeat split.
  - intros pre rest max L. apply scan_database_pages_stop.
  - intros pre rest database max inc L. apply scan_table_pages_stop.
  - intros pre rest max e Hok Hlt.
    apply (scan_database_pages_raise max e pre rest Hok []). exact Hlt.
  - intros pre rest database max inc e Hok Hlt.
    apply (scan_table_pages_raise database max inc e pre rest Hok []). exact Hlt.
Qed.

Lemma listings_stop_at_cap_witness :
  glue_list_databases ([Ok (Some ["a"; "b"])] ++ [Raise (OtherError "throttled")])%list 2%Z
  = Ok {| databases := ["a"; "b"]; databases_truncated := true |}.
Proof.
  exact (proj1 listings_stop_at_cap [Ok (Some ["a"; "b"])]
           [Raise (OtherError "throttled")] 2%Z _ eq_refl eq_refl).
Defined.

(** ** The raw result file *)

Lemma starts_with_drop (p s : string) :
  starts_with p s = true -> s = p ++ drop (String.length p) s.
Proof.
  revert s. induction p as [|a p IH]; intros s; simpl.
  - destruct s; reflexivity.
  - destruct s as [|b s]; [discriminate|].
    intros H. apply andb_true_iff in H as [Hab Hps].
    apply Ascii.eqb_eq in Hab. subst b. rewrite <- (IH s Hps). reflexivity.
Qed.

Lemma split_first_slash_some (path b k : string) :
  split_first_slash path = Some (b, k) ->
  path = b ++ "/" ++ k /\ has_slash b = false.
Proof.
  revert b k. induction path as [|c rest IH]; intros b k; simpl; [discriminate|].
  destruct (code c =? 47)%nat eqn:Ec.
  - intros E. injection E as <- <-. split; [|reflexivity].
    apply Nat.eqb_eq in Ec. unfold code in Ec.
    rewrite <- (ascii_nat_embedding c), Ec. reflexivity.
  - destruct (split_first_slash rest) as [[b' k']|]; [|discriminate].
    intros E. injection E as <- <-. destruct (IH b' k' eq_refl) as [-> Hb].
    split; [reflexivity|]. simpl. rewrite Ec, Hb. reflexivity.
Qed.

Lemma split_first_slash_none (path : string) :
  split_first_slash path = None <-> has_slash path = false.
Proof.
  induction path as [|c rest IH]; simpl; [tauto|].
  destruct (code c =? 47)%nat; simpl.
  - split; discriminate.
  - destruct (split_first_slash rest) as [[b k]|]; rewrite <- IH;
      split; auto; discriminate.
Qed.

Lemma split_first_slash_app (b k : string) :
  has_slash b = false -> split_first_slash (b ++ "/" ++ k) = Some (b, k).
Proof.
  induction b as [|c b IH]; simpl; [reflexivity|].
  intros H. apply orb_false_iff in H as [Hc Hb].
  specialize (IH Hb). simpl in IH. rewrite Hc, IH. reflexivity.
Qed.

(** X11: the bucket and the key [athena_result_csv] returns put the output
    location back together: the location is [s3://], the bucket, a slash and
    the key, and the bucket holds no slash, so the key takes every later
    slash. A location that does not start with [s3://] fails the assertion,
    and one with nothing but a bucket after [s3://] raises the unpacking
    error; in both cases before S3 is asked anything. *)
Theorem athena_result_csv_location
    (E : s3_env) (qid : string) (max_bytes : option Z) (encoding : string)
    (q : execution) :
  execution_of E qid = Ok q ->
  (forall r, athena_result_csv E qid max_bytes encoding = Ok r ->
             OutputLocation q = "s3://" ++ csv_bucket r ++ "/" ++ csv_key r /\
             has_slash (csv_bucket r) = false) /\
  (forall bucket key,
      OutputLocation q = "s3://" ++ bucket ++ "/" ++ key ->
      has_slash bucket = false ->
      forall r, athena_result_csv E qid max_bytes encoding = Ok r ->
                csv_bucket r = bucket /\ csv_key r = key) /\
  (starts_with "s3://" (OutputLocation q) = false ->
   athena_result_csv E qid max_bytes encoding
   = Raise (OtherError ("Unexpected output location: " ++ OutputLocation q))) /\
  (forall bucket,
      OutputLocation q = "s3://" ++ bucket -> has_slash bucket = false ->
      athena_result_csv E qid max_bytes encoding
      = Raise (ValueError "not enough values to unpack (expected 2, got 1)")).
Proof.
  intros Hq.
  assert (Hparts : forall r, athena_result_csv E qid max_bytes encoding = Ok r ->
            starts_with "s3://" (OutputLocation q) = true /\
            split_first_slash (drop 5 (OutputLocation q))
            = Some (csv_bucket r, csv_key r)).
  { intros r. unfold athena_result_csv. rewrite Hq.
    destruct (starts_with "s3://" (OutputLocation q)); cbn [negb]; [|discriminate].
    destruct (split_first_slash (drop 5 (OutputLocation q))) as [[b k]|];
      [|discriminate].
    destruct (head_object E b k) as [total|]; [|discriminate].
    destruct (get_object E b k _) as [data|]; [|discriminate].
    destruct (decode E encoding data) as [t|];
      [|destruct (decode E "utf-8" data) as [t|]; [|discriminate]];
      cbv zeta; intros Hr; injection Hr as <-; auto. }
  split; [|split; [|split]].
  - intros r Hr. destruct (Hparts r Hr) as [Hs Hsp].
    apply split_first_slash_some in Hsp as [Hd Hb].
    split; [|exact Hb].
    rewrite (starts_with_drop "s3://" _ Hs) at 1. simpl String.length.
    rewrite Hd. reflexivity.
  - intros bucket key Hloc Hb r Hr. destruct (Hparts r Hr) as [_ Hsp].
    rewrite Hloc in Hsp.
    change (drop 5 ("s3://" ++ bucket ++ "/" ++ key)) with (bucket ++ "/" ++ key) in Hsp.
    rewrite (split_first_slash_app bucket key Hb) in Hsp.
    injection Hsp as <- <-. auto.
  - intros Hs. unfold athena_result_csv. rewrite Hq, Hs. reflexivity.
  - intros bucket Hloc Hb. unfold athena_result_csv. rewrite Hq, Hloc.
    change (drop 5 ("s3://" ++ bucket)) with bucket.
    apply split_first_slash_none in Hb. rewrite Hb. reflexivity.
Qed.

Lemma athena_result_csv_location_witness :
  athena_result_csv (one_object_store "s3://results" "a,b") "q1" None "utf-8"
  = Raise (ValueError "not enough values to unpack (expected 2, got 1)").
Proof.
  exact (proj2 (proj2 (proj2 (athena_result_csv_location
                                (one_object_store "s3://results" "a,b") "q1"
                                None "utf-8" _ eq_refl)))
               "results" eq_refl eq_refl).
Defined.

(** X12: when [athena_result_csv] returns, [content_length] is the size
    reported for the whole object, read or not; the result is flagged
    truncated exactly when [max_bytes] is a number strictly between 0 and
    that size, and then the bytes from 0 to [max_bytes - 1] are requested,
    otherwise the whole object; the text is the bytes read, decoded in the
    given encoding or, when that decoding raises, in UTF-8. *)
Theorem athena_result_csv_truncation
    (E : s3_env) (qid : string) (max_bytes : option Z) (encoding : string)
    (r : csv_result) :
  athena_result_csv E qid max_bytes encoding = Ok r ->
  head_object E (csv_bucket r) (csv_key r) = Ok (content_length r) /\
  (csv_truncated r = true <->
   exists m, max_bytes = Some m /\ (0 < m < content_length r)%Z) /\
  exists data,
    get_object E (csv_bucket r) (csv_key r)
               (if csv_truncated r
                then match max_bytes with
                     | Some m => Some ("bytes=0-" ++ str_of_Z (m - 1))
                     | None => None
                     end
                else None) = Ok data /\
    (decode E encoding data = Ok (csv r) \/
     (exists e, decode E encoding data = Raise e) /\
     decode E "utf-8" data = Ok (csv r)).
Proof.
  unfold athena_result_csv.
  destruct (execution_of E qid) as [q|]; [|discriminate].
  destruct (negb _); [discriminate|].
  destruct (split_first_slash _) as [[b k]|]; [|discriminate].
  destruct (head_object E b k) as [total|] eqn:Eh; [|discriminate].
  destruct (get_object E b k (byte_range max_bytes total)) as [data|] eqn:Eg;
    [|discriminate].
  assert (Hflag : (match byte_range max_bytes total with
                   | Some _ => true | None => false end = true <->
                   exists m, max_bytes = Some m /\ (0 < m < total)%Z) /\
                  (if match byte_range max_bytes total with
                      | Some _ => true | None => false end
                   then match max_bytes with
                        | Some m => Some ("bytes=0-" ++ str_of_Z (m - 1))
                        | None => None
                        end
                   else None) = byte_range max_bytes total).
  { unfold byte_range. destruct max_bytes as [m|].
    - destruct (Z.ltb_spec 0 m), (Z.ltb_spec m total); simpl; split; auto;
        split; try discriminate; try (intros _; exists m; split; [reflexivity | lia]);
        intros (m' & Hm & Hr); injection Hm as <-; lia.
    - split; [|reflexivity]. split; [discriminate|].
      intros (m & Hm & _). discriminate. }
  destruct Hflag as [Hiff Hrange].
  destruct (decode E encoding data) as [t|e] eqn:Ed.
  - intros Hr. injection Hr as <-.
    cbn [csv_bucket csv_key content_length csv_truncated csv]. rewrite Hrange.
    split; [exact Eh|]. split; [exact Hiff|]. exists data. auto.
  - destruct (decode E "utf-8" data) as [t|] eqn:Eu; [|discriminate].
    intros Hr. injection Hr as <-.
    cbn [csv_bucket csv_key content_length csv_truncated csv]. rewrite Hrange.
    split; [exact Eh|]. split; [exact Hiff|]. exists data.
    split; [exact Eg|]. right. split; [exists e; exact Ed | exact Eu].
Qed.

Lemma athena_result_csv_truncation_witness :
  exists data,
    get_object (one_object_store "s3://results/run/1.csv" "a,b,c")
               "results" "run/1.csv" (Some "bytes=0-1") = Ok data /\
    (decode (one_object_store "s3://results/run/1.csv" "a,b,c") "latin-9" data
     = Ok "a," \/
     (exists e, decode (one_object_store "s3://results/run/1.csv" "a,b,c")
                       "latin-9" data = Raise e) /\
     decode (one_object_store "s3://results/run/1.csv" "a,b,c") "utf-8" data
     = Ok "a,").
Proof.
  exact (proj2 (proj2 (athena_result_csv_truncation
                         (one_object_store "s3://results/run/1.csv" "a,b,c") "q1"
                         (Some 2%Z) "latin-9"
                         {| csv_bucket := "results"; csv_key := "run/1.csv";
                            content_length := 5; csv_truncated := true;
                            csv := "a," |} eq_refl))).
Defined.

(** ** The extractor: which item decides *)

Lemma extract_item_none_iff (J : json_module) (item : content_item) :
  extract_item J item = None <->
  model_dump_json item = None /\
  (json_member item = None \/
   exists v, json_member item = Some (JsonProperty v) /\ truthy v = false) /\
  (text item = None \/ text item = Some EmptyString).
Proof.
  assert (Htext : forall t,
            match t with
            | Some (String c s) =>
                match loads J (String c s) with
                | Decoded parsed =>
                    match unwrap_text J parsed with
                    | Ok v => Some v
                    | Raise _ => Some (JObj [("text", JStr (String c s))])
                    end
                | _ => Some (JObj [("text", JStr (String c s))])
                end
            | _ => None
            end = None <-> (t = None \/ t = Some EmptyString)).
  { intros [[|c s]|]; split; auto.
    - destruct (loads J (String c s)) as [parsed| |]; try discriminate.
      destruct (unwrap_text J parsed); discriminate.
    - intros [E | E]; discriminate. }
  unfold extract_item. split.
  - destruct (model_dump_json item) as [[d|e]|].
    + destruct (loads J d) as [v| |]; try discriminate.
      destruct (unwrap_text J v); discriminate.
    + discriminate.
    + destruct (json_member item) as [[[v|e]|v]|]; try discriminate.
      * destruct (truthy v) eqn:Et; [discriminate|].
        intros Hn. apply Htext in Hn. repeat split; eauto.
      * intros Hn. apply Htext in Hn. repeat split; eauto.
  - intros (-> & Hj & Ht). apply Htext in Ht.
    destruct Hj as [-> | (v & -> & ->)]; exact Ht.
Qed.

(** X13: the extractor gives what the first content item it can use gives,
    whatever comes after it; the items it passes over are those with no
    [model_dump_json], no [json] attribute or a falsy one, and no text or an
    empty one; and when it can use none, or the response has no content,
    the result is the dict with the error [No content found]. *)
Theorem extract_tool_result_first_usable (J : json_module) :
  (forall (skipped rest : list content_item) (item : content_item) (v : json),
      Forall (fun it => extract_item J it = None) skipped ->
      extract_item J item = Some v ->
      extract_tool_result J {| content := Some (skipped ++ item :: rest)%list |} = v) /\
  (forall items : list content_item,
      Forall (fun it => extract_item J it = None) items ->
      extract_tool_result J {| content := Some items |}
      = JObj [("error", JStr "No content found")]) /\
  extract_tool_result J {| content := None |}
  = JObj [("error", JStr "No content found")] /\
  (forall item : content_item,
      extract_item J item = None <->
      model_dump_json item = None /\
      (json_member item = None \/
       exists v, json_member item = Some (JsonProperty v) /\ truthy v = false) /\
      (text item = None \/ text item = Some EmptyString)).
Proof.
  split; [|split; [|split]].
  - intros skipped rest item v Hs Hv. unfold extract_tool_result. cbn [content].
    rewrite (extract_items_skip J skipped (item :: rest) Hs). simpl.
    rewrite Hv. reflexivity.
  - intros items Hs. unfold extract_tool_result. cbn [content].
    rewrite <- (app_nil_r items). rewrite (extract_items_skip J items [] Hs).
    reflexivity.
  - reflexivity.
  - apply extract_item_none_iff.
Qed.

Lemma extract_tool_result_first_usable_witness :
  extract_tool_result py_json
    {| content := Some ([{| model_dump_json := None; json_member := None;
                            text := Some EmptyString |}]
                        ++ text_item "7" :: [text_item "8"])%list |}
  = JNum 7.
Proof.
  refine (proj1 (extract_tool_result_first_usable py_json)
            [{| model_dump_json := None; json_member := None;
                text := Some EmptyString |}]
            [text_item "8"] (text_item "7") (JNum 7) _ eq_refl).
  repeat constructor.
Defined.

(** ** The orchestrator: answers, call arguments, failures *)

(** X14: a response without a tool use ends the run in that round: the
    run returns the non-empty texts of the response joined by line breaks,
    dispatches no tool and leaves the conversation as it was, the answer not
    being appended to it; the rounds left are not used. *)
Theorem answer_without_tool_use
    (J : json_module) (H : hosts) (system : string)
    (tools : list tool_definition) (n : nat) (st : run_state)
    (blocks : list block) :
  create H (length (model_calls st))
         {| call_system := system; call_messages := current_messages st;
            call_tools := Some tools |} = Ok blocks ->
  existsb is_tool_use_block blocks = false ->
  loop J H system tools (S n) st
  = ({| current_messages := current_messages st;
        model_calls :=
          (model_calls st
           ++ [{| call_system := system; call_messages := current_messages st;
                  call_tools := Some tools |}])%list;
        tool_calls := tool_calls st |},
     Some (Ok (join_nl (block_texts blocks)))).
Proof.
  intros Hc Hn. simpl. unfold iteration.
  rewrite Hc, (scan_response_no_tool blocks Hn). reflexivity.
Qed.

Lemma answer_without_tool_use_witness :
  loop py_json mute_hosts "sys" [] 10 (initial_state (question "q"))
  = ({| current_messages := question "q";
        model_calls := [{| call_system := "sys"; call_messages := question "q";
                           call_tools := Some [] |}];
        tool_calls := [] |},
     Some (Ok EmptyString)).
Proof.
  exact (answer_without_tool_use py_json mute_hosts "sys" [] 9
           (initial_state (question "q")) [] eq_refl eq_refl).
Defined.

Lemma loop_call_arguments (J : json_module) (H : hosts) (system : string)
    (tools : list tool_definition) (n : nat) :
  forall st st' r,
    loop J H system tools n st = (st', r) ->
    exists new,
      model_calls st' = (model_calls st ++ new)%list /\
      Forall (fun c => call_system c = system /\ call_tools c = Some tools) new /\
      (length new <= n)%nat /\
      (r = None -> length new = n).
Proof.
  induction n as [|n IH]; simpl; intros st st' r E.
  - injection E as <- <-. exists []. rewrite app_nil_r. auto.
  - assert (Hit : forall st1 re, iteration J H system tools st = (st1, re) ->
              model_calls st1
              = (model_calls st
                 ++ [{| call_system := system; call_messages := current_messages st;
                        call_tools := Some tools |}])%list).
    { intros st1 re. unfold iteration.
      destruct (create H (length (model_calls st)) _) as [blocks|e].
      - destruct (scan_response blocks) as [ps [[id tc]|]];
          intros Ei; injection Ei as <- <-; reflexivity.
      - destruct (is_rate_limit e); intros Ei; injection Ei as <- <-; reflexivity. }
    destruct (iteration J H system tools st) as [st1 [|r1]] eqn:Ei;
      specialize (Hit _ _ eq_refl).
    + destruct (IH _ _ _ E) as (new & Hm & Hf & Hl & Hr).
      exists ({| call_system := system; call_messages := current_messages st;
                 call_tools := Some tools |} :: new).
      rewrite Hm, Hit, <- app_assoc. simpl.
      repeat split; auto; try lia; intros Hn; specialize (Hr Hn); lia.
    + injection E as <- <-. eexists. split; [exact Hit|].
      repeat split; auto; simpl; try lia. discriminate.
Qed.

(** X15: every model call of a run is given the system prompt; the calls
    of the rounds, at most [max_iterations] of them, are given the whole
    list of tool definitions, and the only call made without tools is the
    summary call, which comes last and only after [max_iterations] rounds. *)
Theorem run_call_arguments
    (J : json_module) (H : hosts) (tools : list tool_definition)
    (messages : list message) (system : string) (max_iterations : Z) :
  let out := call_llm_with_tools J H tools messages system max_iterations in
  exists in_rounds extra,
    model_calls (final_state out) = (in_rounds ++ extra)%list /\
    Forall (fun c => call_system c = system /\ call_tools c = Some tools) in_rounds /\
    (length in_rounds <= Z.to_nat max_iterations)%nat /\
    (extra = [] \/
     exists c, extra = [c] /\ call_system c = system /\ call_tools c = None /\
               length in_rounds = Z.to_nat max_iterations).
Proof.
  intros out. unfold out, call_llm_with_tools. fold (initial_state messages).
  destruct (loop J H system tools (Z.to_nat max_iterations) (initial_state messages))
    as [st r] eqn:El.
  destruct (loop_call_arguments J H system tools _ _ _ _ El)
    as (new & Hm & Hf & Hl & Hr).
  simpl in Hm. destruct r as [r|].
  - exists new, []. simpl. rewrite app_nil_r. auto.
  - specialize (Hr eq_refl). unfold exhausted.
    destruct (has_data J (current_messages st)).
    + exists new. eexists.
      destruct (create H (length (model_calls st)) _) as [blocks|e];
        [destruct (block_texts blocks)|]; simpl; rewrite Hm;
        (split; [reflexivity|]); repeat split; auto; right; eexists;
        repeat split; auto.
    + exists new, []. simpl. rewrite app_nil_r. auto.
Qed.

Lemma loop_raise_is_model_failure (J : json_module) (H : hosts) (system : string)
    (tools : list tool_definition) (n : nat) :
  forall st st' e,
    assistant_bodies_are_parts (current_messages st) ->
    loop J H system tools n st = (st', Some (Raise e)) ->
    exists c, create H (length (model_calls st') - 1) c = Raise e /\
              is_rate_limit e = false /\
              last (model_calls st') c = c.
Proof.
  induction n as [|n IH]; intros st st' e Hp; simpl; [discriminate|].
  destruct (iteration J H system tools st) as [st1 [|r]] eqn:E.
  - apply IH. exact (iteration_keeps_parts J H system tools st st1 _ Hp E).
  - intros Hr. injection Hr as <- ->. unfold iteration in E.
    destruct (create H (length (model_calls st)) _) as [blocks|e'] eqn:Ec.
    + destruct (scan_response blocks) as [ps [[id tc]|]]; inversion E.
    + destruct (is_rate_limit e') eqn:Er; inversion E; subst; clear E.
      * exfalso. unfold salvage in H2.
        rewrite (salvage_texts_parts _ Hp) in H2.
        destruct (assistant_texts (current_messages st)); discriminate.
      * eexists. simpl. rewrite length_app, last_last. simpl.
        replace (length (model_calls st) + 1 - 1)%nat with (length (model_calls st))
          by lia.
        repeat split; eauto.
Qed.

(** X16: a run started on a conversation whose assistant messages all have
    a list of parts as content, as the conversations the handlers start
    have, raises only what its last model call raised, and only when that
    failure is not classed as rate limiting; gathering the texts after a
    rate limit does not raise there. *)
Theorem run_raises_only_model_failures
    (J : json_module) (H : hosts) (tools : list tool_definition)
    (messages : list message) (system : string) (max_iterations : Z) (e : exn) :
  assistant_bodies_are_parts messages ->
  let out := call_llm_with_tools J H tools messages system max_iterations in
  answer out = Raise e ->
  exists c,
    last (model_calls (final_state out)) c = c /\
    create H (length (model_calls (final_state out)) - 1) c = Raise e /\
    is_rate_limit e = false.
Proof.
  intros Hp out. unfold out, call_llm_with_tools. fold (initial_state messages).
  destruct (loop J H system tools (Z.to_nat max_iterations) (initial_state messages))
    as [st [r|]] eqn:El.
  - simpl. intros ->.
    destruct (loop_raise_is_model_failure J H system tools _
                (initial_state messages) _ _ Hp El)
      as (c & Hc & Hr & Hl).
    exists c. auto.
  - destruct (exhausted_answers J H system st) as [s Hs].
    destruct (exhausted J H system st) as [st' r]. simpl in *.
    intros Hr. congruence.
Qed.

Lemma run_raises_only_model_failures_witness :
  exists c,
    last (model_calls (final_state
            (call_llm_with_tools py_json down_hosts [] (question "q") "sys" 10))) c = c /\
    create down_hosts
      (length (model_calls (final_state
         (call_llm_with_tools py_json down_hosts [] (question "q") "sys" 10))) - 1) c
    = Raise (OtherError "connection refused") /\
    is_rate_limit (OtherError "connection refused") = false.
Proof.
  exact (run_raises_only_model_failures py_json down_hosts [] (question "q") "sys" 10
           (OtherError "connection refused") (question_bodies_are_parts "q") eq_refl).
Defined.

Lemma loop_call_counts (J : json_module) (H : hosts) (system : string)
    (tools : list tool_definition) (n : nat) :
  forall st st' r,
    loop J H system tools n st = (st', r) ->
    (length (tool_calls st') <= length (tool_calls st) + n)%nat /\
    (r = None ->
     length (tool_calls st') = (length (tool_calls st) + n)%nat /\
     length (model_calls st') = (length (model_calls st) + n)%nat) /\
    (r <> None ->
     (length (model_calls st') - length (model_calls st)
      = S (length (tool_calls st') - length (tool_calls st)))%nat /\
     (length (tool_calls st) <= length (tool_calls st'))%nat /\
     (length (tool_calls st') < length (tool_calls st) + n)%nat).
Proof.
  induction n as [|n IH]; simpl; intros st st' r E.
  - injection E as <- <-. split; [lia|]. split.
    + intros _. lia.
    + intros Hr. congruence.
  - assert (Hit : forall st1 re, iteration J H system tools st = (st1, re) ->
              length (model_calls st1) = S (length (model_calls st)) /\
              match re with
              | Continue => length (tool_calls st1) = S (length (tool_calls st))
              | Return _ => tool_calls st1 = tool_calls st
              end).
    { intros st1 re Ei. split; [exact (iteration_one_call _ _ _ _ _ _ _ Ei)|].
      unfold iteration in Ei.
      destruct (create H (length (model_calls st)) _) as [blocks|e].
      - destruct (scan_response blocks) as [ps [[id tc]|]];
          injection Ei as <- <-; simpl; [rewrite length_app; simpl; lia | reflexivity].
      - destruct (is_rate_limit e); injection Ei as <- <-; reflexivity. }
    destruct (iteration J H system tools st) as [st1 [|r1]] eqn:Ei;
      destruct (Hit _ _ eq_refl) as [Hm Ht].
    + destruct (IH _ _ _ E) as (Hle & Hnone & Hsome).
      split; [lia|]. split.
      * intros Hr. destruct (Hnone Hr). lia.
      * intros Hr. destruct (Hsome Hr) as (H1 & H2 & H3). lia.
    + injection E as <- <-. rewrite Ht, Hm. split; [lia|]. split.
      * discriminate.
      * intros _. lia.
Qed.

(** X17: a run dispatches at most [max_iterations] tools, never more than
    one per model call, and every model call but the last is followed by a
    tool dispatch: the model calls are as many as the tool calls, or one
    more. *)
Theorem run_tool_calls_bounded
    (J : json_module) (H : hosts) (tools : list tool_definition)
    (messages : list message) (system : string) (max_iterations : Z) :
  let out := call_llm_with_tools J H tools messages system max_iterations in
  (length (tool_calls (final_state out)) <= Z.to_nat max_iterations)%nat /\
  (length (tool_calls (final_state out)) <= length (model_calls (final_state out)))%nat /\
  (length (model_calls (final_state out))
   <= S (length (tool_calls (final_state out))))%nat.
Proof.
  intros out. unfold out, call_llm_with_tools. fold (initial_state messages).
  destruct (loop J H system tools (Z.to_nat max_iterations) (initial_state messages))
    as [st r] eqn:El.
  destruct (loop_call_counts J H system tools _ _ _ _ El) as (Hle & Hnone & Hsome).
  simpl in *. destruct r as [r|].
  - destruct (Hsome ltac:(discriminate)) as (H1 & H2 & H3). simpl. lia.
  - destruct (Hnone eq_refl) as [Ht Hm]. unfold exhausted.
    destruct (has_data J (current_messages st)); [|simpl; lia].
    destruct (create H (length (model_calls st)) _) as [blocks|e];
      [destruct (block_texts blocks)|]; simpl; rewrite length_app; simpl; lia.
Qed.

(** ** What counts as a rate limit *)

Lemma starts_with_app (p post : string) : starts_with p (p ++ post) = true.
Proof.
  induction p as [|a p IH]; simpl; [reflexivity|].
  rewrite Ascii.eqb_refl, IH. reflexivity.
Qed.

Lemma str_in_iff (needle s : string) :
  str_in needle s = true <-> exists pre post, s = pre ++ needle ++ post.
Proof.
  induction s as [|c s IH]; simpl str_in.
  - rewrite orb_false_r. split.
    + intros Hs. exists EmptyString. exists EmptyString.
      destruct needle; [reflexivity | discriminate].
    + intros (pre & post & Hs). destruct pre; [|discriminate]. simpl in Hs.
      rewrite Hs. apply starts_with_app.
  - rewrite orb_true_iff, IH. split.
    + intros [Hs | (pre & post & ->)].
      * exists EmptyString. eexists. simpl. exact (starts_with_drop needle _ Hs).
      * exists (String c pre), post. reflexivity.
    + intros (pre & post & Hs). destruct pre as [|d pre].
      * left. simpl in Hs. rewrite Hs. apply starts_with_app.
      * right. simpl in Hs. injection Hs as _ ->. eauto.
Qed.

Lemma str_lower_split (s a b : string) :
  str_lower s = a ++ b ->
  exists a' b', s = a' ++ b' /\ str_lower a' = a /\ str_lower b' = b.
Proof.
  revert s. induction a as [|x a IH]; intros s Hs.
  - exists EmptyString, s. auto.
  - destruct s as [|y s]; [discriminate|]. simpl in Hs. injection Hs as Hx Hs.
    destruct (IH s Hs) as (a' & b' & -> & <- & <-).
    exists (String y a'), b'. simpl. rewrite Hx. auto.
Qed.

(** X18: a model failure is classed as rate limiting exactly when its
    message holds the digits 429 somewhere, or the words [rate limit] in
    any letter case; nothing else of the exception is looked at, so any
    message with 429 in it, whatever it stands for, takes the salvage
    path. *)
Theorem is_rate_limit_iff (e : exn) :
  is_rate_limit e = true <->
  (exists pre post, exn_str e = pre ++ "429" ++ post) \/
  (exists pre mid post, exn_str e = pre ++ mid ++ post /\
                        str_lower mid = "rate limit").
Proof.
  unfold is_rate_limit. rewrite orb_true_iff, !str_in_iff. split.
  - intros [H | (pre & post & Hs)]; [left; exact H | right].
    apply str_lower_split in Hs as (pre' & rest & -> & _ & Hrest).
    apply str_lower_split in Hrest as (mid & post' & -> & Hmid & _).
    exists pre', mid, post'. auto.
  - intros [H | (pre & mid & post & -> & Hmid)]; [left; exact H | right].
    exists (str_lower pre), (str_lower post).
    rewrite !str_lower_app, Hmid. reflexivity.
Qed.

Lemma is_rate_limit_iff_witness :
  is_rate_limit (OtherError "request req_4291 failed: invalid api key") = true.
Proof.
  apply (proj2 (is_rate_limit_iff (OtherError "request req_4291 failed: invalid api key"))).
  left. exists "request req_", "1 failed: invalid api key". reflexivity.
Defined.

(** ** The handlers *)

Lemma lstrip_all_space (s : string) :
  lstrip s = EmptyString <-> all_space s = true.
Proof.
  induction s as [|c s IH]; simpl; [tauto|].
  destruct (is_space c); simpl; [exact IH | split; discriminate].
Qed.

Lemma lstrip_head (s : string) :
  match lstrip s with
  | EmptyString => True
  | String c _ => is_space c = false
  end.
Proof.
  induction s as [|c s IH]; simpl; [exact I|].
  destruct (is_space c) eqn:E; [exact IH | exact E].
Qed.

Lemma rstrip_nonempty (c : ascii) (s : string) :
  is_space c = false -> rstrip (String c s) <> EmptyString.
Proof.
  intros Hc. simpl. destruct (rstrip s); [rewrite Hc|]; discriminate.
Qed.

Lemma strip_empty_iff (s : string) :
  strip s = EmptyString <-> all_space s = true.
Proof.
  unfold strip. rewrite <- lstrip_all_space.
  pose proof (lstrip_head s) as Hh.
  destruct (lstrip s) as [|c r]; [simpl; tauto|].
  split; [|discriminate]. intros Hr.
  exfalso. exact (rstrip_nonempty c r Hh Hr).
Qed.

Lemma lstrip_app_space (p s : string) :
  all_space p = true -> lstrip (p ++ s) = lstrip s.
Proof.
  induction p as [|c p IH]; simpl; [reflexivity|].
  intros H. apply andb_true_iff in H as [Hc Hp]. rewrite Hc. exact (IH Hp).
Qed.

Lemma rstrip_all_space (p : string) :
  all_space p = true -> rstrip p = EmptyString.
Proof.
  induction p as [|c p IH]; simpl; [reflexivity|].
  intros H. apply andb_true_iff in H as [Hc Hp]. rewrite (IH Hp), Hc. reflexivity.
Qed.

Lemma rstrip_app_space (q p : string) :
  all_space p = true ->
  match last_char q with Some d => is_space d = false | None => False end ->
  rstrip (q ++ p) = q.
Proof.
  intros Hp. induction q as [|c q IH]; simpl; [tauto|].
  destruct (last_char q) as [d|] eqn:El.
  - intros Hd. rewrite (IH Hd). destruct q; [discriminate | reflexivity].
  - intros Hc. destruct q as [|x q].
    + simpl. rewrite (rstrip_all_space p Hp), Hc. reflexivity.
    + simpl in El. destruct (last_char q); discriminate.
Qed.

Lemma strip_padded (p1 q p2 : string) :
  all_space p1 = true -> all_space p2 = true ->
  match head q with Some c => is_space c = false | None => False end ->
  match last_char q with Some d => is_space d = false | None => False end ->
  strip (p1 ++ q ++ p2) = q.
Proof.
  intros H1 H2 Hh Hl. unfold strip. rewrite (lstrip_app_space p1 _ H1).
  destruct q as [|c q]; [contradiction|]. simpl in Hh. simpl lstrip.
  rewrite Hh. exact (rstrip_app_space (String c q) p2 H2 Hl).
Qed.

Lemma is_space_lower (c : ascii) : is_space (lower c) = is_space c.
Proof.
  assert (H : forallb (fun c => Bool.eqb (is_space (lower c)) (is_space c)) all_ascii = true)
    by (vm_compute; reflexivity).
  rewrite forallb_forall in H. apply Bool.eqb_prop, H, in_all_ascii.
Qed.

Lemma lower_ends (q w : string) :
  str_lower q = w ->
  match head w with Some c => is_space c = false | None => False end ->
  match last_char w with Some d => is_space d = false | None => False end ->
  match head q with Some c => is_space c = false | None => False end /\
  match last_char q with Some d => is_space d = false | None => False end.
Proof.
  intros <-. rewrite head_lower, last_char_lower.
  destruct (head q), (last_char q); simpl; rewrite ?is_space_lower; tauto.
Qed.

Lemma run_calls_bound (J : json_module) (H : hosts) (tools : list tool_definition)
    (messages : list message) (system : string) (max_iterations : Z) :
  (length (model_calls (final_state
     (call_llm_with_tools J H tools messages system max_iterations)))
   <= Z.to_nat max_iterations + 1)%nat.
Proof.
  unfold call_llm_with_tools. fold (initial_state messages).
  destruct (loop J H system tools (Z.to_nat max_iterations) (initial_state messages))
    as [st r] eqn:El.
  destruct (loop_calls_bound J H system tools _ _ _ _ El) as [Hle _].
  simpl in Hle. destruct r as [r|]; [simpl; lia|].
  destruct (exhausted_nonempty J H system st) as (s & _ & _ & Hn).
  destruct (exhausted J H system st) as [st' r]. simpl in *. lia.
Qed.

(** X19: [ask_data] sends one reply and starts no run when the text is
    missing, empty or made of white space only (the reply asks for a
    question), and when it is one of the five refresh words, in any letter
    case and with white space around it or not (the reply says the
    conversation is refreshed). *)
Theorem ask_data_without_run
    (J : json_module) (H : hosts) (tools : list tool_definition) (system : string) :
  ask_data J H tools system None = ([AskForQuestion], None) /\
  (forall t, all_space t = true ->
             ask_data J H tools system (Some t) = ([AskForQuestion], None)) /\
  (forall w p1 q p2,
      In w REFRESH_WORDS -> str_lower q = w ->
      all_space p1 = true -> all_space p2 = true ->
      ask_data J H tools system (Some (p1 ++ q ++ p2)) = ([Refreshed], None)).
Proof.
  split; [reflexivity|]. split.
  - intros t Ht. unfold ask_data.
    replace (match t with String c t0 => String c t0 | EmptyString => EmptyString end)
      with t by (destruct t; reflexivity).
    apply strip_empty_iff in Ht. rewrite Ht. reflexivity.
  - intros w p1 q p2 Hw Hq H1 H2.
    assert (Hends : match head w with Some c => is_space c = false | None => False end /\
                    match last_char w with Some d => is_space d = false | None => False end /\
                    strip w = w).
    { unfold REFRESH_WORDS in Hw. simpl in Hw.
      repeat (destruct Hw as [<- | Hw]; [repeat split; reflexivity|]).
      contradiction. }
    destruct Hends as (Hh & Hl & Hsw).
    destruct (lower_ends q w Hq Hh Hl) as [Hqh Hql].
    pose proof (strip_padded p1 q p2 H1 H2 Hqh Hql) as Hs.
    unfold ask_data.
    replace (match p1 ++ q ++ p2 with
             | String c t0 => String c t0 | EmptyString => EmptyString end)
      with (p1 ++ q ++ p2) by (destruct (p1 ++ q ++ p2); reflexivity).
    rewrite Hs. destruct q as [|c q]; [contradiction|].
    rewrite Hq, Hsw.
    assert (He : existsb (String.eqb w) REFRESH_WORDS = true).
    { apply existsb_exists. exists w. split; [exact Hw | apply String.eqb_refl]. }
    rewrite He. reflexivity.
Qed.

Lemma ask_data_without_run_witness :
  ask_data py_json down_hosts [] "sys" (Some ("  " ++ "New Conversation" ++ " "))
  = ([Refreshed], None).
Proof.
  exact (proj2 (proj2 (ask_data_without_run py_json down_hosts [] "sys"))
           "new conversation" "  " "New Conversation" " "
           (or_intror (or_intror (or_intror (or_introl eq_refl))))
           eq_refl eq_refl eq_refl).
Defined.

(** X20: when [ask_data] starts a run, it is on the conversation made of
    the one user message with the question stripped of the white space
    around it, with the rounds bounded by 10, so that at most 11 model calls
    are made; it has sent the notice with the question before, and it sends
    the answer of the run after, or, when the run raises, the message of the
    exception as an error reply: the exception does not leave the handler,
    and it is a model failure not classed as rate limiting. *)
Theorem ask_data_with_run
    (J : json_module) (H : hosts) (tools : list tool_definition) (system : string)
    (text : option string) (replies : list reply) (out : outcome) :
  ask_data J H tools system text = (replies, Some out) ->
  exists q,
    q = strip (match text with Some t => t | None => EmptyString end) /\
    q <> EmptyString /\
    out = call_llm_with_tools J H tools (question q) system 10 /\
    (length (model_calls (final_state out)) <= 11)%nat /\
    replies = [Analyzing q;
               match answer out with
               | Ok a => Answer a
               | Raise e => ErrorReply (exn_str e)
               end] /\
    (forall e, answer out = Raise e -> is_rate_limit e = false).
Proof.
  unfold ask_data.
  replace (match text with
           | Some (String c t) => String c t
           | _ => EmptyString
           end)
    with (match text with Some t => t | None => EmptyString end)
    by (destruct text as [[|c t]|]; reflexivity).
  set (q := strip (match text with Some t => t | None => EmptyString end)).
  destruct q as [|c q'] eqn:Eq; [discriminate|].
  destruct (existsb _ REFRESH_WORDS); [discriminate|].
  set (run := call_llm_with_tools J H tools
                [{| msg_role := user; msg_body := Plain (String c q') |}] system 10).
  assert (Hb : (length (model_calls (final_state run)) <= 11)%nat)
    by exact (run_calls_bound J H tools _ system 10).
  assert (Hr : forall e, answer run = Raise e -> is_rate_limit e = false).
  { intros e He. unfold run, call_llm_with_tools in He.
    destruct (loop J H system tools (Z.to_nat 10) _) as [st [r|]] eqn:El.
    - simpl in He. subst r.
      destruct (loop_raise_is_model_failure J H system tools _
                  (initial_state (question (String c q'))) _ _
                  (question_bodies_are_parts _) El) as (c0 & _ & Hrl & _).
      exact Hrl.
    - destruct (exhausted_answers J H system st) as [s Hs].
      destruct (exhausted J H system st) as [st' r]. simpl in *. congruence. }
  destruct (answer run) as [a|e] eqn:Ea; intros E; injection E as <- <-;
    exists (String c q'); rewrite Ea; repeat split; auto; discriminate.
Qed.

Lemma ask_data_with_run_witness :
  exists q,
    q = strip " show revenue " /\
    q <> EmptyString /\
    snd (ask_data py_json down_hosts [] "sys" (Some " show revenue "))
    = Some (call_llm_with_tools py_json down_hosts [] (question q) "sys" 10) /\
    fst (ask_data py_json down_hosts [] "sys" (Some " show revenue "))
    = [Analyzing q; ErrorReply "connection refused"].
Proof.
  destruct (ask_data_with_run py_json down_hosts [] "sys" (Some " show revenue ")
              _ _ eq_refl) as (q & Hq & Hne & Hout & _ & Hrep & _).
  exists q. subst q. repeat split; [exact Hne].
Defined.

(** X21: [handle_message] greets exactly when the event has no subtype and
    no bot id, comes from a direct-message channel and has a text with a
    character that is not white space; otherwise it sends nothing, so it
    never answers a bot, itself included. *)
Theorem handle_message_replies (ev : message_event) :
  (handle_message ev = [Greeting] <->
   truthy_id (ev_subtype ev) = false /\
   truthy_id (ev_bot_id ev) = false /\
   ev_channel_type ev = Some "im" /\
   exists t, ev_text ev = Some t /\ all_space t = false) /\
  (handle_message ev = [Greeting] \/ handle_message ev = []).
Proof.
  unfold handle_message.
  destruct (truthy_id (ev_subtype ev)); simpl.
  { split; [split; [discriminate | intros (E & _); discriminate] | auto]. }
  destruct (truthy_id (ev_bot_id ev)); simpl.
  { split; [split; [discriminate | intros (_ & E & _); discriminate] | auto]. }
  destruct (ev_channel_type ev) as [ct|].
  2:{ split; [split; [discriminate | intros (_ & _ & E & _); discriminate] | auto]. }
  destruct (String.eqb_spec ct "im") as [-> | Hne].
  2:{ split; [split; [discriminate|] | auto].
      intros (_ & _ & E & _). injection E as E. contradiction. }
  destruct (ev_text ev) as [t|].
  - destruct (strip t) as [|c s] eqn:Es.
    + split; [split; [discriminate|] | auto].
      intros (_ & _ & _ & t' & Et & Hsp). injection Et as <-.
      apply strip_empty_iff in Es. congruence.
    + split; [|auto]. split; [|reflexivity]. intros _. repeat split.
      exists t. split; [reflexivity|].
      destruct (all_space t) eqn:Ea; [|reflexivity].
      apply strip_empty_iff in Ea. congruence.
  - simpl. split; [split; [discriminate|] | auto].
    intros (_ & _ & _ & t & Et & _). discriminate.
Qed.

Lemma handle_message_replies_witness :
  truthy_id None = false /\ truthy_id (Some EmptyString) = false /\
  Some "im" = Some "im" /\
  exists t, Some " hi" = Some t /\ all_space t = false.
Proof.
  exact (proj1 (proj1 (handle_message_replies
                         {| ev_subtype := None; ev_bot_id := Some EmptyString;
                            ev_channel_type := Some "im"; ev_text := Some " hi" |}))
               eq_refl).
Defined.

(** X22: a mention is served as the command is: on the text left once the
    bot's mention is taken out, [handle_mentions] starts the run [ask_data]
    starts, or none as it does, and sends the replies that stand for the
    replies of [ask_data], in the same order. *)
Theorem handle_mentions_as_ask_data
    (J : json_module) (H : hosts) (tools : list tool_definition) (system : string)
    (authed_users : option (list string)) (text : option string) :
  let raw := match text with Some t => t | None => EmptyString end in
  ask_data J H tools system (Some (mention_text authed_users raw))
  = (map as_command_reply (fst (handle_mentions J H tools system authed_users text)),
     snd (handle_mentions J H tools system authed_users text)).
Proof.
  intros raw. unfold ask_data, handle_mentions. fold raw.
  replace (match mention_text authed_users raw with
           | String c t => String c t
           | EmptyString => EmptyString
           end)
    with (mention_text authed_users raw)
    by (destruct (mention_text authed_users raw); reflexivity).
  destruct (strip (mention_text authed_users raw)) as [|c q]; [reflexivity|].
  destruct (existsb _ REFRESH_WORDS); [reflexivity|].
  destruct (answer _); reflexivity.
Qed.

Lemma take_id_run (b rest : string) :
  all_chars is_id_char b = true ->
  match head rest with Some c => is_id_char c = false | None => True end ->
  take_id (b ++ rest) = (b, rest).
Proof.
  intros Hb Hr. induction b as [|c b IH]; simpl.
  - destruct rest as [|d rest]; [reflexivity|]. simpl in *. rewrite Hr. reflexivity.
  - simpl in Hb. apply andb_true_iff in Hb as [Hc Hb].
    rewrite Hc, (IH Hb). reflexivity.
Qed.

Lemma first_mention_found (p b s : string) :
  has_char 60 p = false ->
  b <> EmptyString -> all_chars is_id_char b = true ->
  first_mention (p ++ "<@" ++ b ++ ">" ++ s) = Some b.
Proof.
  intros Hp Hne Hb. induction p as [|c p IH].
  - simpl app. unfold first_mention.
    assert (Hm : match_mention ("<@" ++ b ++ ">" ++ s) = Some b).
    { pose proof (take_id_run b (">" ++ s) Hb eq_refl) as Ht.
      simpl in Ht |- *. rewrite Ht.
      destruct b; [congruence | reflexivity]. }
    destruct s; simpl in *; rewrite Hm; reflexivity.
  - simpl in Hp. apply orb_false_iff in Hp as [Hc Hp].
    change (first_mention (String c (p ++ "<@" ++ b ++ ">" ++ s)) = Some b).
    assert (Hm : match_mention (String c (p ++ "<@" ++ b ++ ">" ++ s)) = None).
    { unfold match_mention. destruct (p ++ "<@" ++ b ++ ">" ++ s); [reflexivity|].
      rewrite Hc. reflexivity. }
    simpl first_mention. simpl in Hm. rewrite Hm. exact (IH Hp).
Qed.

Lemma starts_with_other_head (old s : string) (c : ascii) :
  head old = Some (ascii_of_nat 60) -> (code c =? 60)%nat = false ->
  starts_with old (String c s) = false.
Proof.
  destruct old as [|a old]; [discriminate|]. simpl. intros Ha Hc.
  injection Ha as ->. destruct (Ascii.eqb_spec (ascii_of_nat 60) c) as [<- | _];
    [discriminate | reflexivity].
Qed.

Lemma remove_all_untouched (old s : string) :
  head old = Some (ascii_of_nat 60) -> has_char 60 s = false ->
  forall fuel, remove_all fuel old s = s.
Proof.
  intros Ho. induction s as [|c s IH]; intros Hs fuel; destruct fuel as [|fuel];
    try reflexivity.
  - simpl. destruct old; [discriminate | reflexivity].
  - simpl in Hs. apply orb_false_iff in Hs as [Hc Hs].
    simpl remove_all. rewrite (starts_with_other_head old s c Ho Hc), (IH Hs).
    reflexivity.
Qed.

Lemma drop_app_length (a b : string) : drop (String.length a) (a ++ b) = b.
Proof. induction a as [|c a IH]; simpl; [destruct b; reflexivity | exact IH]. Qed.

Lemma remove_all_one (old p s : string) :
  head old = Some (ascii_of_nat 60) ->
  has_char 60 p = false -> has_char 60 s = false ->
  forall fuel, (String.length p < fuel)%nat ->
    remove_all fuel old (p ++ old ++ s) = p ++ s.
Proof.
  intros Ho Hp Hs. induction p as [|c p IH]; intros fuel Hf;
    (destruct fuel as [|fuel]; [simpl in Hf; lia|]).
  - simpl app. simpl remove_all. rewrite starts_with_app, drop_app_length.
    apply remove_all_untouched; assumption.
  - simpl in Hp. apply orb_false_iff in Hp as [Hc Hp].
    simpl app. simpl remove_all.
    rewrite (starts_with_other_head old _ c Ho Hc).
    rewrite (IH Hp fuel) by (simpl in Hf; lia). reflexivity.
Qed.

Lemma str_length_app (a b : string) :
  String.length (a ++ b) = (String.length a + String.length b)%nat.
Proof. induction a as [|c a IH]; simpl; [reflexivity | rewrite IH; reflexivity]. Qed.

(** X23: when the text is the bot's mention with a text before it and a
    text after it that hold no [<], the mention being the bot id given with
    the event or, when none is given, the first mention, the handler goes
    on with the two texts put together: the mention is taken out and
    nothing else. *)
Theorem mention_is_removed
    (authed_users : option (list string)) (p b s : string) :
  has_char 60 p = false -> has_char 60 s = false ->
  b <> EmptyString -> all_chars is_id_char b = true ->
  (forall u us, authed_users = Some (u :: us) -> u = b \/ u = EmptyString) ->
  mention_text authed_users (p ++ "<@" ++ b ++ ">" ++ s) = p ++ s.
Proof.
  intros Hp Hs Hne Hb Hau.
  assert (Hid : mention_bot_id authed_users (p ++ "<@" ++ b ++ ">" ++ s) = Some b).
  { unfold mention_bot_id. pose proof (first_mention_found p b s Hp Hne Hb) as Hf.
    destruct authed_users as [[|u us]|]; try exact Hf.
    destruct (Hau u us eq_refl) as [-> | ->]; [|exact Hf].
    destruct b; [congruence | reflexivity]. }
  unfold mention_text. rewrite Hid. unfold str_replace_empty.
  replace (p ++ "<@" ++ b ++ ">" ++ s) with (p ++ ("<@" ++ b ++ ">") ++ s)
    by (simpl; rewrite !str_app_assoc; reflexivity).
  apply remove_all_one; auto.
  rewrite str_length_app. lia.
Qed.

Lemma mention_is_removed_witness :
  mention_text None ("hey " ++ "<@" ++ "U12AB" ++ ">" ++ " show revenue")
  = "hey " ++ " show revenue".
Proof.
  refine (mention_is_removed None "hey " "U12AB" " show revenue"
            eq_refl eq_refl _ eq_refl _).
  - discriminate.
  - intros u us Hu. discriminate.
Defined.

(** X24: whether the summary is asked for after the rounds are used up
    depends on one thing: that some user message holds a tool-result part.
    What the payloads decode to plays no part, so that results that are all
    errors lead to the summary call as results with data do. *)
Theorem summary_decision_ignores_payloads
    (J : json_module) (H : hosts) (system : string) (st : run_state) :
  (has_data J (current_messages st) = true <->
   exists m ps id payload,
     In m (current_messages st) /\ msg_role m = user /\
     msg_body m = Parts ps /\ In (ToolResultPart id payload) ps) /\
  (forall J' : json_module, exhausted J H system st = exhausted J' H system st).
Proof.
  split.
  - rewrite has_data_tool_result. unfold user_parts_exist.
    rewrite existsb_exists. split.
    + intros (m & Hm & Hb). apply andb_true_iff in Hb as [Hr Hb].
      destruct (msg_body m) as [|ps] eqn:Eb; [discriminate|].
      apply existsb_exists in Hb as (p & Hp & Hres).
      destruct p as [| |id payload]; try discriminate.
      exists m, ps, id, payload. repeat split; auto.
      destruct (msg_role m); [reflexivity | discriminate].
    + intros (m & ps & id & payload & Hm & Hr & Hb & Hp).
      exists m. split; [exact Hm|]. rewrite Hr, Hb. simpl.
      apply existsb_exists. exists (ToolResultPart id payload). auto.
  - intros J'. unfold exhausted. rewrite !has_data_tool_result. reflexivity.
Qed.

Lemma summary_decision_ignores_payloads_witness :
  has_data py_json
    [{| msg_role := user; msg_body := Plain "q" |};
     {| msg_role := user; msg_body := Parts [ToolResultPart "a" "not json"] |}]
  = true.
Proof.
  apply (proj1 (summary_decision_ignores_payloads py_json mute_hosts "sys"
                  {| current_messages :=
                       [{| msg_role := user; msg_body := Plain "q" |};
                        {| msg_role := user;
                           msg_body := Parts [ToolResultPart "a" "not json"] |}];
                     model_calls := []; tool_calls := [] |})).
  exists {| msg_role := user; msg_body := Parts [ToolResultPart "a" "not json"] |},
         [ToolResultPart "a" "not json"], "a", "not json".
  simpl. auto.
Defined.
